(** * Ralph Deluxe dashboard server ([.ralph/serve.py]): a shallow embedding

    The server bridges a browser dashboard to a file-based control plane.
    Two POST endpoints mutate files: [enqueue_command] appends to the
    pending queue in [commands.json], [update_settings] rewrites
    allow-listed [KEY=value] lines of [ralph.conf]; both write through
    [atomic_write] (temp file, then rename).

    Modelling choices:
    - text is [string]; a line is a maximal run without the newline
      character, which is the only line separator Python's [re] knows;
      a file holds its content as it is on disk, and reading it in text
      mode turns every line ending into a newline
      ([universal_newlines]);
    - the file system is a finite map from paths to file contents plus a
      finite set of directories ([gmap], [gset]);
    - Python exceptions are values of [exn]; every operation is a function
      in a state-and-error monad over the file system;
    - what the operating system may do wrong during one call (a failing
      [mkdir], a write that stops half way, ...) is an explicit [env]
      record, so that failure paths are ordinary inputs;
    - the [json] module is an interface ([JsonCodec]): reading a text,
      reading the bytes of a request body, and printing; each reading
      returns a document or raises.  A reference implementation for
      the integer fragment of JSON is given in [PyJson] and used to run
      the model on concrete requests. *)

From Stdlib Require Import Strings.Ascii.
From stdpp Require Import gmap strings list pretty.

Set Warnings "-register-all".

Open Scope list_scope.
Open Scope stdpp_scope.

#[global] Arguments String.append !s1 s2 : simpl nomatch.

(** ** Text *)

Module Text.

Definition NL : ascii := "010"%char.
Definition CR : ascii := "013"%char.
Definition DQ : ascii := "034"%char.
Definition nl : string := String NL "".
Definition cr : string := String CR "".
Definition dq : string := String DQ "".

(** [s.startswith(p)] *)
Fixpoint starts_with (p s : string) : bool :=
  match p, s with
  | EmptyString, _ => true
  | String a p', String b s' => if decide (a = b) then starts_with p' s' else false
  | String _ _, EmptyString => false
  end.

(** [c in s], for a character *)
Fixpoint has_char (c : ascii) (s : string) : bool :=
  match s with
  | EmptyString => false
  | String a s' => if decide (a = c) then true else has_char c s'
  end.

(** [p in s], for strings: Python's substring test. *)
Fixpoint has_substring (p s : string) : bool :=
  starts_with p s ||
  match s with
  | EmptyString => false
  | String _ s' => has_substring p s'
  end.

(** [s.split("\n")]: never empty, no piece holds a newline. *)
Fixpoint lines (s : string) : list string :=
  match s with
  | EmptyString => [EmptyString]
  | String c s' =>
      if decide (c = NL) then EmptyString :: lines s'
      else match lines s' with
           | l :: ls => String c l :: ls
           | [] => [String c EmptyString]
           end
  end.

(** ["\n".join(ls)] *)
Fixpoint unlines (ls : list string) : string :=
  match ls with
  | [] => EmptyString
  | [l] => l
  | l :: ls' => l +:+ nl +:+ unlines ls'
  end.

(** [s[:n]] *)
Fixpoint take_str (n : nat) (s : string) : string :=
  match n, s with
  | S n', String c s' => String c (take_str n' s')
  | _, _ => EmptyString
  end.

(** What a file opened with [open(p, "r")] hands to the program for the
    content [s]: with the default [newline=None] a carriage return
    followed by a newline, and a carriage return on its own, both
    become one newline. *)
Fixpoint universal_newlines (s : string) : string :=
  match s with
  | EmptyString => EmptyString
  | String c s' =>
      if decide (c = CR) then
        match s' with
        | String c' s'' =>
            if decide (c' = NL) then String NL (universal_newlines s'')
            else String NL (universal_newlines s')
        | EmptyString => String NL EmptyString
        end
      else String c (universal_newlines s')
  end.

End Text.
Import Text.

(** ** JSON values and the Python operations the server applies to them

    A parsed JSON document is a Python object: [None], [bool], [int],
    [str], [list] or [dict].  A [dict] keeps insertion order, so it is an
    association list; [json.loads] never yields a repeated key.  Floats
    are left out of the model. *)

Inductive json : Type :=
| JNull
| JBool (b : bool)
| JInt (n : Z)
| JStr (s : string)
| JArr (xs : list json)
| JObj (kvs : list (string * json)).

Module PyDict.

(** [k in d] *)
Fixpoint has (k : string) (kvs : list (string * json)) : bool :=
  match kvs with
  | [] => false
  | (k', _) :: kvs' => if decide (k' = k) then true else has k kvs'
  end.

(** [d.get(k)] *)
Fixpoint get (k : string) (kvs : list (string * json)) : option json :=
  match kvs with
  | [] => None
  | (k', v) :: kvs' => if decide (k' = k) then Some v else get k kvs'
  end.

(** [d[k] = v]: an existing key keeps its position, a new one goes last. *)
Fixpoint set (k : string) (v : json) (kvs : list (string * json))
  : list (string * json) :=
  match kvs with
  | [] => [(k, v)]
  | (k', v') :: kvs' =>
      if decide (k' = k) then (k, v) :: kvs' else (k', v') :: set k v kvs'
  end.

(** [{**a, **b}] continued from [a]. *)
Definition merge (a b : list (string * json)) : list (string * json) :=
  fold_left (fun acc kv => set (fst kv) (snd kv) acc) b a.

End PyDict.

(** Python truthiness, as tested by [if not body]. *)
Definition py_truthy (j : json) : bool :=
  match j with
  | JNull => false
  | JBool b => b
  | JInt n => negb (Z.eqb n 0)
  | JStr s => negb (bool_decide (s = ""))
  | JArr xs => negb (bool_decide (xs = []))
  | JObj kvs => negb (bool_decide (kvs = []))
  end.

(** ** Exceptions and results *)

Inductive exn_class :=
  JSONDecodeError | UnicodeDecodeError | RecursionError | ValueError
| TypeError | KeyError | AttributeError | OSError.

Record exn := Exn { exn_cls : exn_class; exn_msg : string }.

Inductive result (A : Type) : Type :=
| Ok (a : A)
| Raise (e : exn).
Arguments Ok {A} a.
Arguments Raise {A} e.

(** [str(n)] for an integer.  The interpreter refuses to print an
    integer of more than [sys.int_max_str_digits] decimal digits, 4300
    unless it is reconfigured, which the server never does; the sign
    does not count. *)
Definition INT_MAX_STR_DIGITS : N := 4300.

Definition int_digits (n : Z) : N := N.of_nat (String.length (pretty (Z.abs n))).

Definition int_str (n : Z) : result string :=
  if (INT_MAX_STR_DIGITS <? int_digits n)%N
  then Raise (Exn ValueError
                "Exceeds the limit (4300 digits) for integer string conversion; use sys.set_int_max_str_digits() to increase the limit")
  else Ok (pretty n).

(** [repr(value)].  Inside a container Python quotes a string and escapes
    what it must; the sanitizer below only ever sees that such a text
    opens with a bracket or a brace, so the quoting is kept plain here.
    The elements are printed in order, and the first one that cannot be
    printed ends the call. *)
Fixpoint py_repr (j : json) : result string :=
  match j with
  | JNull => Ok "None"
  | JBool true => Ok "True"
  | JBool false => Ok "False"
  | JInt n => int_str n
  | JStr s => Ok ("'" +:+ s +:+ "'")
  | JArr xs =>
      match (fix items (xs : list json) : result string :=
               match xs with
               | [] => Ok ""
               | x :: xs' =>
                   match py_repr x with
                   | Raise ex => Raise ex
                   | Ok r =>
                       match xs' with
                       | [] => Ok r
                       | _ :: _ =>
                           match items xs' with
                           | Ok rs => Ok (r +:+ ", " +:+ rs)
                           | Raise ex => Raise ex
                           end
                       end
                   end
               end) xs with
      | Ok body => Ok ("[" +:+ body +:+ "]")
      | Raise ex => Raise ex
      end
  | JObj kvs =>
      match (fix items (kvs : list (string * json)) : result string :=
               match kvs with
               | [] => Ok ""
               | (k, v) :: kvs' =>
                   match py_repr v with
                   | Raise ex => Raise ex
                   | Ok r =>
                       match kvs' with
                       | [] => Ok ("'" +:+ k +:+ "': " +:+ r)
                       | _ :: _ =>
                           match items kvs' with
                           | Ok rs => Ok ("'" +:+ k +:+ "': " +:+ r +:+ ", " +:+ rs)
                           | Raise ex => Raise ex
                           end
                       end
                   end
               end) kvs with
      | Ok body => Ok ("{" +:+ body +:+ "}")
      | Raise ex => Raise ex
      end
  end.

(** [str(value)] *)
Definition py_str (j : json) : result string :=
  match j with
  | JStr s => Ok s
  | _ => py_repr j
  end.

(** The [json] module, as far as the server uses it.  [json_loads] is
    [json.loads] on a text, which is what [json.load(f)] applies to the
    text read from [f]; [json_loads_bytes] is [json.loads] on the
    [bytes] of a request body, which finds the encoding out and decodes
    before it parses; [json_dumps] is [json.dumps(obj, indent=2)].  A
    reading returns the document or raises: [json.JSONDecodeError] for a
    text that is not JSON, and also [UnicodeDecodeError] for bytes that
    do not decode, [RecursionError] for a document nested too deep and
    [ValueError] for an integer literal beyond the digit limit. *)
Class JsonCodec := {
  json_loads : string -> result json;
  json_loads_bytes : string -> result json;
  json_dumps : json -> string;
}.

(** ** The file system and what can go wrong in it *)

Abbreviation path := (list string).

Record fs := Fs {
  files : gmap path string;
  dirs : gset path;
}.

(** The faults the operating system injects during one call:
    [tmp_candidates] are the random stems [tempfile] draws, in order;
    [write_fault = Some (n, msg)] stops the write after [n] characters. *)
Record env := Env {
  mkdir_fault : option string;
  read_fault : option string;
  tmp_candidates : list string;
  mkstemp_fault : option string;
  write_fault : option (nat * string);
  replace_fault : option string;
}.

(** State-and-error monad: an exception keeps the file system as it was
    when it was raised. *)
Definition M (A : Type) : Type := fs -> result A * fs.

Definition ret {A} (a : A) : M A := fun s => (Ok a, s).
Definition raise {A} (e : exn) : M A := fun s => (Raise e, s).
Definition bind {A B} (m : M A) (k : A -> M B) : M B :=
  fun s => match m s with
           | (Ok a, s') => k a s'
           | (Raise e, s') => (Raise e, s')
           end.
(** [try: m  except Exception as e: h e] *)
Definition try_except {A} (m : M A) (h : exn -> M A) : M A :=
  fun s => match m s with
           | (Ok a, s') => (Ok a, s')
           | (Raise e, s') => h e s'
           end.
Definition get_fs : M fs := fun s => (Ok s, s).
Definition put_fs (s : fs) : M unit := fun _ => (Ok tt, s).

Notation "'do' x <- m ; k" := (bind m (fun x => k))
  (at level 10, x name, m at level 100, k at level 200).
Notation "'run' m ; k" := (bind m (fun _ => k))
  (at level 10, m at level 100, k at level 200).

Definition os_error {A} (msg : string) : M A := raise (Exn OSError msg).

(** [Path.parent] *)
Definition parent (p : path) : path := removelast p.

(** [Path.exists()] *)
Definition path_exists (s : fs) (p : path) : bool :=
  bool_decide (is_Some (files s !! p)) || bool_decide (p ∈ dirs s).

(** The directory itself and everything above it, root first. *)
Definition ancestors_or_self (d : path) : list path :=
  map (fun n => take n d) (seq 0 (S (length d))).

(** [d.mkdir(parents=True, exist_ok=True)]: refuses when the path or one
    of its ancestors is a regular file, creates what is missing. *)
Definition mkdir_p (e : env) (d : path) : M unit :=
  match mkdir_fault e with
  | Some msg => os_error msg
  | None =>
      do s <- get_fs;
      if existsb (fun a => bool_decide (is_Some (files s !! a))) (ancestors_or_self d)
      then os_error "File exists"
      else put_fs (Fs (files s) (dirs s ∪ list_to_set (ancestors_or_self d)))
  end.

(** [open(p, "r").read()]: the file is opened in text mode, so the
    program gets its content with the line endings translated.  A file
    whose bytes do not decode is a read that fails ([read_fault]). *)
Definition read_text (e : env) (p : path) : M string :=
  match read_fault e with
  | Some msg => os_error msg
  | None =>
      do s <- get_fs;
      match files s !! p with
      | Some c => ret (universal_newlines c)
      | None =>
          if bool_decide (p ∈ dirs s) then os_error "Is a directory"
          else os_error "No such file or directory"
      end
  end.

Definition tmp_name (stem : string) : string := "tmp" +:+ stem +:+ ".tmp".

(** [tempfile.mkstemp(dir=d, suffix=".tmp")]: tries the candidate names
    in turn, skips those that exist, creates the first free one empty.
    Each try opens the file inside [d], which fails for good when [d] is
    not a directory. *)
Fixpoint mkstemp_loop (d : path) (stems : list string) : M path :=
  match stems with
  | [] => os_error "No usable temporary file name found"
  | stem :: rest =>
      do s <- get_fs;
      let p := d ++ [tmp_name stem] in
      if negb (bool_decide (d ∈ dirs s)) then os_error "No such file or directory"
      else if path_exists s p then mkstemp_loop d rest
      else run put_fs (Fs (<[p := ""]> (files s)) (dirs s)); ret p
  end.

Definition mkstemp (e : env) (d : path) : M path :=
  match mkstemp_fault e with
  | Some msg => os_error msg
  | None => mkstemp_loop d (tmp_candidates e)
  end.

(** [with os.fdopen(fd, "w") as f: f.write(data)] on the file at [p]:
    the text goes through the descriptor that [mkstemp] opened, so no
    path is looked up; on POSIX, which [os.replace] below relies on as
    well, a newline is written as it is. *)
Definition write_text (e : env) (p : path) (data : string) : M unit :=
  do s <- get_fs;
  match write_fault e with
  | Some (n, msg) =>
      run put_fs (Fs (<[p := take_str n data]> (files s)) (dirs s)); os_error msg
  | None => put_fs (Fs (<[p := data]> (files s)) (dirs s))
  end.

(** [os.replace(src, dst)]: one indivisible step.  The new name must lie
    in a directory and must not be one itself. *)
Definition os_replace (e : env) (src dst : path) : M unit :=
  match replace_fault e with
  | Some msg => os_error msg
  | None =>
      do s <- get_fs;
      if negb (bool_decide (parent dst ∈ dirs s))
      then os_error "No such file or directory"
      else if bool_decide (dst ∈ dirs s) then os_error "Is a directory"
      else match files s !! src with
           | Some c => put_fs (Fs (<[dst := c]> (delete src (files s))) (dirs s))
           | None => os_error "No such file or directory"
           end
  end.

(** [os.unlink(p)] *)
Definition os_unlink (p : path) : M unit :=
  do s <- get_fs;
  match files s !! p with
  | Some _ => put_fs (Fs (delete p (files s)) (dirs s))
  | None => os_error "No such file or directory"
  end.

(** ** [atomic_write] *)

Definition atomic_write (e : env) (filepath : path) (data : string) : M unit :=
  run mkdir_p e (parent filepath);
  do tmp_path <- mkstemp e (parent filepath);
  try_except
    (run write_text e tmp_path data;
     os_replace e tmp_path filepath)
    (fun ex => run os_unlink tmp_path; raise ex).

(** Every state of the file system between the call of [atomic_write] and
    its return, in order: a reader racing the call sees one of them.  The
    content reaches the temporary file in pieces, so every prefix that was
    written so far is a state of its own; [os.replace] and [os.unlink]
    are single steps. *)
Definition chars_written (e : env) (data : string) : nat :=
  match write_fault e with
  | Some (n, _) => n
  | None => String.length data
  end.

Definition atomic_write_trace (e : env) (filepath : path) (data : string)
    (s0 : fs) : list fs :=
  s0 ::
  match mkdir_p e (parent filepath) s0 with
  | (Raise _, s1) => [s1]
  | (Ok _, s1) =>
      s1 ::
      match mkstemp e (parent filepath) s1 with
      | (Raise _, s2) => [s2]
      | (Ok tmp_path, s2) =>
          s2 ::
          map (fun k => Fs (<[tmp_path := take_str k data]> (files s2)) (dirs s2))
              (seq 0 (S (chars_written e data)))
          ++ [snd (try_except
                     (run write_text e tmp_path data;
                      os_replace e tmp_path filepath)
                     (fun ex => run os_unlink tmp_path; raise ex) s2)]
      end
  end.

(** ** A reference [json] codec

    [dumps] prints as [json.dumps(obj, indent=2)] does, [loads] is a
    recursive-descent reader of the same grammar.  Characters are code
    points below 256 and numbers are integers; a document outside that
    fragment is not read.  The bytes of a body are read when each of
    them is an ASCII character other than NUL, which is where decoding
    changes nothing; a body with another byte is outside the fragment,
    and is refused the way undecodable bytes are. *)

Module PyJson.

Definition BSL : ascii := "092"%char.

Definition hex_digit (n : nat) : ascii :=
  nth n ["0";"1";"2";"3";"4";"5";"6";"7";"8";"9";"a";"b";"c";"d";"e";"f"]%char "0"%char.

Definition escape_char (c : ascii) : string :=
  let n := nat_of_ascii c in
  match n with
  | 8 => String BSL "b"
  | 9 => String BSL "t"
  | 10 => String BSL "n"
  | 12 => String BSL "f"
  | 13 => String BSL "r"
  | 34 => String BSL dq
  | 92 => String BSL (String BSL "")
  | _ =>
      if (n <? 32) || (126 <? n)
      then String BSL ("u00" +:+ String (hex_digit (n / 16)) (String (hex_digit (n mod 16)) ""))
      else String c ""
  end.

Fixpoint escape (s : string) : string :=
  match s with
  | EmptyString => EmptyString
  | String c s' => escape_char c +:+ escape s'
  end.

Definition dumps_string (s : string) : string := dq +:+ escape s +:+ dq.

Fixpoint indent (lvl : nat) : string :=
  match lvl with
  | 0 => EmptyString
  | S l => "  " +:+ indent l
  end.

Fixpoint dumps_at (lvl : nat) (j : json) : string :=
  match j with
  | JNull => "null"
  | JBool true => "true"
  | JBool false => "false"
  | JInt n => pretty n
  | JStr s => dumps_string s
  | JArr [] => "[]"
  | JArr xs =>
      "[" +:+ nl +:+ indent (S lvl) +:+
      (fix items (xs : list json) : string :=
         match xs with
         | [] => ""
         | x :: xs' =>
             dumps_at (S lvl) x +:+
             match xs' with
             | [] => ""
             | _ :: _ => "," +:+ nl +:+ indent (S lvl) +:+ items xs'
             end
         end) xs
      +:+ nl +:+ indent lvl +:+ "]"
  | JObj [] => "{}"
  | JObj kvs =>
      "{" +:+ nl +:+ indent (S lvl) +:+
      (fix items (kvs : list (string * json)) : string :=
         match kvs with
         | [] => ""
         | (k, v) :: kvs' =>
             dumps_string k +:+ ": " +:+ dumps_at (S lvl) v +:+
             match kvs' with
             | [] => ""
             | _ :: _ => "," +:+ nl +:+ indent (S lvl) +:+ items kvs'
             end
         end) kvs
      +:+ nl +:+ indent lvl +:+ "}"
  end.

Definition dumps (j : json) : string := dumps_at 0 j.

Definition is_ws (c : ascii) : bool :=
  match nat_of_ascii c with
  | 32 | 9 | 10 | 13 => true
  | _ => false
  end.

Fixpoint skip_ws (s : string) : string :=
  match s with
  | String c s' => if is_ws c then skip_ws s' else s
  | EmptyString => EmptyString
  end.

Definition hex_value (c : ascii) : option nat :=
  let n := nat_of_ascii c in
  if (48 <=? n) && (n <=? 57) then Some (n - 48)
  else if (97 <=? n) && (n <=? 102) then Some (n - 87)
  else if (65 <=? n) && (n <=? 70) then Some (n - 55)
  else None.

Definition cons_char (c : ascii) (r : option (string * string))
  : option (string * string) :=
  match r with
  | Some (body, rest) => Some (String c body, rest)
  | None => None
  end.

(** The text after an opening quote: the decoded string and what follows
    the closing quote. *)
Fixpoint read_string (s : string) : option (string * string) :=
  match s with
  | EmptyString => None
  | String c s' =>
      if decide (c = DQ) then Some (EmptyString, s')
      else if decide (c = BSL) then
        match s' with
        | String e s'' =>
            match nat_of_ascii e with
            | 34 => cons_char DQ (read_string s'')
            | 92 => cons_char BSL (read_string s'')
            | 47 => cons_char "/"%char (read_string s'')
            | 98 => cons_char "008"%char (read_string s'')
            | 102 => cons_char "012"%char (read_string s'')
            | 110 => cons_char "010"%char (read_string s'')
            | 114 => cons_char "013"%char (read_string s'')
            | 116 => cons_char "009"%char (read_string s'')
            | 117 =>
                match s'' with
                | String h1 (String h2 (String h3 (String h4 s4))) =>
                    match hex_value h1, hex_value h2, hex_value h3, hex_value h4 with
                    | Some 0, Some 0, Some a, Some b =>
                        cons_char (ascii_of_nat (16 * a + b)) (read_string s4)
                    | _, _, _, _ => None
                    end
                | _ => None
                end
            | _ => None
            end
        | EmptyString => None
        end
      else if nat_of_ascii c <? 32 then None
      else cons_char c (read_string s')
  end.

Definition digit_value (c : ascii) : option Z :=
  let n := nat_of_ascii c in
  if (48 <=? n) && (n <=? 57) then Some (Z.of_nat (n - 48)) else None.

Fixpoint read_digits (acc : Z) (s : string) : Z * string :=
  match s with
  | String c s' =>
      match digit_value c with
      | Some d => read_digits (10 * acc + d)%Z s'
      | None => (acc, s)
      end
  | EmptyString => (acc, s)
  end.

(** An integer literal: an optional minus sign, then a lone zero or a
    run of digits that does not start with zero.  A fraction or an
    exponent after it would make a float and is refused. *)
Definition read_nat (s : string) : option (Z * string) :=
  match s with
  | String c s' =>
      match digit_value c with
      | Some 0%Z => Some (0%Z, s')
      | Some d => Some (read_digits d s')
      | None => None
      end
  | EmptyString => None
  end.

Definition no_fraction (r : option (Z * string)) : option (Z * string) :=
  match r with
  | Some (n, String c rest) =>
      if decide (c = "."%char) then None
      else if decide (c = "e"%char) then None
      else if decide (c = "E"%char) then None
      else r
  | _ => r
  end.

Definition read_int (s : string) : option (Z * string) :=
  match s with
  | String c s' =>
      if decide (c = "-"%char)
      then match no_fraction (read_nat s') with
           | Some (n, rest) => Some ((- n)%Z, rest)
           | None => None
           end
      else no_fraction (read_nat s)
  | EmptyString => None
  end.

Definition read_literal (lit : string) (v : json) (s : string)
  : option (json * string) :=
  if starts_with lit s then Some (v, String.substring (String.length lit) (String.length s - String.length lit) s)
  else None.

Section Containers.
Variable read_value : string -> option (json * string).

(** After [[] and the first element's leading blanks. *)
Fixpoint read_elems (fuel : nat) (acc : list json) (s : string)
  : option (json * string) :=
  match fuel with
  | 0 => None
  | S fuel' =>
      match read_value s with
      | Some (v, rest) =>
          match skip_ws rest with
          | String c rest' =>
              if decide (c = ","%char) then read_elems fuel' (acc ++ [v]) (skip_ws rest')
              else if decide (c = "]"%char) then Some (JArr (acc ++ [v]), rest')
              else None
          | EmptyString => None
          end
      | None => None
      end
  end.

(** After [{] and the first key's leading blanks.  A repeated key keeps
    its first position and takes the last value, as a [dict] does. *)
Fixpoint read_members (fuel : nat) (acc : list (string * json)) (s : string)
  : option (json * string) :=
  match fuel with
  | 0 => None
  | S fuel' =>
      match s with
      | String q s1 =>
          if decide (q = DQ) then
            match read_string s1 with
            | Some (k, rest) =>
                match skip_ws rest with
                | String c rest' =>
                    if decide (c = ":"%char) then
                      match read_value (skip_ws rest') with
                      | Some (v, rest2) =>
                          match skip_ws rest2 with
                          | String c2 rest3 =>
                              if decide (c2 = ","%char)
                              then read_members fuel' (PyDict.set k v acc) (skip_ws rest3)
                              else if decide (c2 = "}"%char)
                              then Some (JObj (PyDict.set k v acc), rest3)
                              else None
                          | EmptyString => None
                          end
                      | None => None
                      end
                    else None
                | EmptyString => None
                end
            | None => None
            end
          else None
      | EmptyString => None
      end
  end.
End Containers.

Fixpoint read_value (fuel : nat) (s : string) : option (json * string) :=
  match fuel with
  | 0 => None
  | S fuel' =>
      match s with
      | EmptyString => None
      | String c rest =>
          if decide (c = "{"%char) then
            match skip_ws rest with
            | String c' rest' =>
                if decide (c' = "}"%char) then Some (JObj [], rest')
                else read_members (read_value fuel') fuel' [] (skip_ws rest)
            | EmptyString => None
            end
          else if decide (c = "["%char) then
            match skip_ws rest with
            | String c' rest' =>
                if decide (c' = "]"%char) then Some (JArr [], rest')
                else read_elems (read_value fuel') fuel' [] (skip_ws rest)
            | EmptyString => None
            end
          else if decide (c = DQ) then
            match read_string rest with
            | Some (str, rest') => Some (JStr str, rest')
            | None => None
            end
          else if decide (c = "n"%char) then read_literal "null" JNull s
          else if decide (c = "t"%char) then read_literal "true" (JBool true) s
          else if decide (c = "f"%char) then read_literal "false" (JBool false) s
          else match read_int s with
               | Some (n, rest') => Some (JInt n, rest')
               | None => None
               end
      end
  end.

Definition loads (s : string) : option json :=
  match read_value (S (String.length s)) (skip_ws s) with
  | Some (j, rest) =>
      match skip_ws rest with
      | EmptyString => Some j
      | String _ _ => None
      end
  | None => None
  end.

Definition loads_text (s : string) : result json :=
  match loads s with
  | Some j => Ok j
  | None => Raise (Exn JSONDecodeError "Expecting value")
  end.

Fixpoint plain_ascii (raw : string) : bool :=
  match raw with
  | EmptyString => true
  | String c raw' =>
      (0 <? nat_of_ascii c) && (nat_of_ascii c <? 128) && plain_ascii raw'
  end.

Definition loads_bytes (raw : string) : result json :=
  if plain_ascii raw then loads_text raw
  else Raise (Exn UnicodeDecodeError "'utf-8' codec can't decode byte").

Definition codec : JsonCodec :=
  {| json_loads := loads_text; json_loads_bytes := loads_bytes; json_dumps := dumps |}.

End PyJson.

(** ** The server *)

Definition lift {A} (r : result A) : M A :=
  match r with
  | Ok a => ret a
  | Raise ex => raise ex
  end.

(** [k in obj] for a string [k]: key membership in a [dict], element
    membership in a [list], substring test in a [str]; the other values
    are not iterable. *)
Definition py_contains (k : string) (obj : json) : result bool :=
  match obj with
  | JObj kvs => Ok (PyDict.has k kvs)
  | JArr xs =>
      Ok (existsb (fun x => match x with
                            | JStr s => bool_decide (s = k)
                            | _ => false
                            end) xs)
  | JStr s => Ok (has_substring k s)
  | _ => Raise (Exn TypeError "argument is not iterable")
  end.

(** [obj[k] = v] for a string [k] *)
Definition py_setitem (obj : json) (k : string) (v : json) : result json :=
  match obj with
  | JObj kvs => Ok (JObj (PyDict.set k v kvs))
  | JArr _ => Raise (Exn TypeError "list indices must be integers or slices, not str")
  | _ => Raise (Exn TypeError "object does not support item assignment")
  end.

(** [obj[k]] for a string [k] *)
Definition py_getitem (obj : json) (k : string) : result json :=
  match obj with
  | JObj kvs =>
      match PyDict.get k kvs with
      | Some v => Ok v
      | None => Raise (Exn KeyError k)
      end
  | JArr _ => Raise (Exn TypeError "list indices must be integers or slices, not str")
  | JStr _ => Raise (Exn TypeError "string indices must be integers, not 'str'")
  | _ => Raise (Exn TypeError "object is not subscriptable")
  end.

(** [obj[k].append(x)]: the list is changed in place, so [obj] sees it. *)
Definition py_append_at (obj : json) (k : string) (x : json) : result json :=
  match py_getitem obj k with
  | Ok (JArr xs) => py_setitem obj k (JArr (xs ++ [x]))
  | Ok _ => Raise (Exn AttributeError "object has no attribute 'append'")
  | Raise ex => Raise ex
  end.

(** [len(obj[k])] *)
Definition py_len_at (obj : json) (k : string) : result nat :=
  match py_getitem obj k with
  | Ok (JArr xs) => Ok (length xs)
  | Ok (JObj kvs) => Ok (length kvs)
  | Ok (JStr s) => Ok (String.length s)
  | Ok _ => Raise (Exn TypeError "object has no len()")
  | Raise ex => Raise ex
  end.

Definition ALLOWED_SETTINGS : list string :=
  [ "RALPH_VALIDATION_STRATEGY";
    "RALPH_COMPACTION_INTERVAL";
    "RALPH_COMPACTION_THRESHOLD_BYTES";
    "RALPH_DEFAULT_MAX_TURNS";
    "RALPH_MIN_DELAY_SECONDS";
    "RALPH_MODE" ].

Definition allowed (key : string) : bool := bool_decide (key ∈ ALLOWED_SETTINGS).

(** The character class [[a-zA-Z0-9_\-]] *)
Definition in_class (c : ascii) : bool :=
  let n := nat_of_ascii c in
  ((97 <=? n) && (n <=? 122)) || ((65 <=? n) && (n <=? 90)) ||
  ((48 <=? n) && (n <=? 57)) || (n =? 95) || (n =? 45).

(** Where [$] holds without [re.MULTILINE]: at the end of the text, and
    just before a newline that ends the text. *)
Definition at_dollar (rest : string) : bool :=
  bool_decide (rest = "") || bool_decide (rest = nl).

(** [re.match(r'^[a-zA-Z0-9_\-]+$', s)]: one character of the class, then
    either [$] or the same again. *)
Fixpoint safe_value_match (s : string) : bool :=
  match s with
  | EmptyString => false
  | String c rest => in_class c && (at_dollar rest || safe_value_match rest)
  end.

(** A line that [^(KEY=).*$] matches under [re.MULTILINE]: [^] holds at
    the start of each line, [.*] runs to the end of the line, so the
    pattern matches exactly the lines that begin with [KEY=].  The keys
    that reach the pattern are allow-listed names, which [re.escape]
    leaves as they are. *)
Definition key_line (key line : string) : bool := starts_with (key +:+ "=") line.

(** [pattern.search(content)] *)
Definition pattern_search (key content : string) : bool :=
  existsb (key_line key) (lines content).

(** The replacement [\g<1>"{safe_value}"] for one matched line. *)
Definition new_line (key safe_value : string) : string :=
  key +:+ "=" +:+ dq +:+ safe_value +:+ dq.

(** [pattern.sub(rf'\g<1>"{safe_value}"', content)]: every matching line
    is replaced, the rest of the text stays. *)
Definition pattern_sub (key safe_value content : string) : string :=
  unlines (map (fun l => if key_line key l then new_line key safe_value else l)
               (lines content)).

(** What [pattern.sub] makes of one line, as lines. *)
Definition sub_line (k sv l : string) : list string :=
  if key_line k l then lines (new_line k sv) else [l].

(** The body of [for key, value in settings.items()], threading
    [content] and [updated].  When [str(value)] raises, the loop ends
    there and what it had rewritten so far is lost with it. *)
Fixpoint settings_loop (items : list (string * json)) (content : string)
    (updated : list string) : result (string * list string) :=
  match items with
  | [] => Ok (content, updated)
  | (key, value) :: rest =>
      if negb (allowed key) then settings_loop rest content updated
      else
        match py_str value with
        | Raise ex => Raise ex
        | Ok safe_value =>
            if negb (safe_value_match safe_value)
            then settings_loop rest content updated
            else if pattern_search key content
                 then settings_loop rest (pattern_sub key safe_value content)
                                    (updated ++ [key])
                 else settings_loop rest content updated
        end
  end.

(** The request as the handler reads it: the [Content-Length] header
    after [int(...)] and the bytes waiting on the socket. *)
Inductive content_length := NoHeader | Length (n : nat) | NotANumber.

Record request := Request {
  req_path : string;
  req_length : content_length;
  rfile : string;
}.

Inductive response :=
| JsonResponse (status : nat) (data : json)
| ErrorPage (status : nat) (message : string).

(** Nothing is injected. *)
Definition fault_free (e : env) : bool :=
  bool_decide (mkdir_fault e = None) && bool_decide (read_fault e = None) &&
  bool_decide (mkstemp_fault e = None) && bool_decide (write_fault e = None) &&
  bool_decide (replace_fault e = None).

(** The conditions under which writing [p] goes through: no injected
    fault, no regular file in the way of the parent directory, no
    directory at [p] itself, and a temporary name that is still free. *)
Definition writable (e : env) (s : fs) (p : path) : bool :=
  fault_free e &&
  forallb (fun a => negb (bool_decide (is_Some (files s !! a))))
          (ancestors_or_self (parent p)) &&
  negb (bool_decide (p ∈ dirs s)) &&
  existsb (fun stem => negb (path_exists s (parent p ++ [tmp_name stem])))
          (tmp_candidates e).

(** [atomic_write] raises [ex] in one of the steps that precede
    [os.replace]: creating the directory, creating the temporary file,
    writing the content. *)
Definition fails_before_replace (e : env) (filepath : path) (data : string)
    (s : fs) (ex : exn) : Prop :=
  (∃ s1, mkdir_p e (parent filepath) s = (Raise ex, s1)) ∨
  (∃ s1 s2, mkdir_p e (parent filepath) s = (Ok tt, s1) ∧
            mkstemp e (parent filepath) s1 = (Raise ex, s2)) ∨
  (∃ s1 tmp s2 s3, mkdir_p e (parent filepath) s = (Ok tt, s1) ∧
                   mkstemp e (parent filepath) s1 = (Ok tmp, s2) ∧
                   write_text e tmp data s2 = (Raise ex, s3)).

(** The temporary file a call of [atomic_write] creates, if it gets
    that far. *)
Definition created_tmp (e : env) (filepath : path) (s : fs) : option path :=
  match mkdir_p e (parent filepath) s with
  | (Ok _, s1) =>
      match mkstemp e (parent filepath) s1 with
      | (Ok tmp, _) => Some tmp
      | (Raise _, _) => None
      end
  | (Raise _, _) => None
  end.

(** One or more characters, all of the class: a well-formed value. *)
Fixpoint all_in_class (s : string) : bool :=
  match s with
  | EmptyString => true
  | String c rest => in_class c && all_in_class rest
  end.

Definition well_formed (s : string) : bool :=
  negb (bool_decide (s = "")) && all_in_class s.


(** A line that no allow-listed key owns. *)
Definition foreign_line (l : string) : bool :=
  forallb (fun k => negb (key_line k l)) ALLOWED_SETTINGS.

Section Server.
Context {codec : JsonCodec}.
(** The directory that holds [serve.py]. *)
Variable SCRIPT_DIR : path.

Definition CONTROL_FILE : path := SCRIPT_DIR ++ ["control"; "commands.json"].
Definition CONFIG_FILE : path := SCRIPT_DIR ++ ["config"; "ralph.conf"].

(** [with open(p, "r") as f: json.load(f)]: the text of the file, as
    text mode gives it, goes to [json.loads]. *)
Definition json_load (e : env) (p : path) : M json :=
  do text <- read_text e p; lift (json_loads text).

Definition enqueue_command (e : env) (command_obj : json) : M json :=
  run mkdir_p e (parent CONTROL_FILE);
  do s <- get_fs;
  do control <-
    (if path_exists s CONTROL_FILE
     then json_load e CONTROL_FILE
     else ret (JObj [("pending", JArr [])]));
  do present <- lift (py_contains "pending" control);
  do control <-
    (if negb present then lift (py_setitem control "pending" (JArr []))
     else ret control);
  do control <- lift (py_append_at control "pending" command_obj);
  run atomic_write e CONTROL_FILE (json_dumps control +:+ nl);
  ret control.

Definition update_settings (e : env) (settings : json) : M json :=
  do s <- get_fs;
  if negb (path_exists s CONFIG_FILE)
  then ret (JObj [("error", JStr "ralph.conf not found")])
  else
    do content <- read_text e CONFIG_FILE;
    match settings with
    | JObj items =>
        do looped <- lift (settings_loop items content []);
        let '(content', updated) := looped in
        run (if bool_decide (updated = []) then ret tt
             else atomic_write e CONFIG_FILE content');
        ret (JObj [("updated", JArr (map JStr updated))])
    | _ => raise (Exn AttributeError "object has no attribute 'items'")
    end.

(** [RalphHandler._read_body]: [raw] is a [bytes] object. *)
Definition read_body (req : request) : M json :=
  match req_length req with
  | NotANumber => raise (Exn ValueError "invalid literal for int() with base 10")
  | NoHeader | Length 0 => ret (JObj [])
  | Length n => lift (json_loads_bytes (take_str n (rfile req)))
  end.

(** The two [except] clauses shared by both handlers. *)
Definition respond (m : M response) (s : fs) : response * fs :=
  match m s with
  | (Ok r, s') => (r, s')
  | (Raise ex, s') =>
      match exn_cls ex with
      | JSONDecodeError => (JsonResponse 400 (JObj [("error", JStr "Invalid JSON")]), s')
      | _ => (JsonResponse 500 (JObj [("error", JStr (exn_msg ex))]), s')
      end
  end.

(** [RalphHandler._handle_command] *)
Definition handle_command (e : env) (req : request) : fs -> response * fs :=
  respond
    (do body <- read_body req;
     do present <- lift (py_contains "command" body);
     if negb present
     then ret (JsonResponse 400 (JObj [("error", JStr "Missing 'command' field")]))
     else
       do result <- enqueue_command e body;
       do n <- lift (py_len_at result "pending");
       ret (JsonResponse 200
              (JObj [("ok", JBool true); ("pending_count", JInt (Z.of_nat n))]))).

(** [RalphHandler._handle_settings] *)
Definition handle_settings (e : env) (req : request) : fs -> response * fs :=
  respond
    (do body <- read_body req;
     if negb (py_truthy body)
     then ret (JsonResponse 400 (JObj [("error", JStr "Empty body")]))
     else
       do result <- update_settings e body;
       match result with
       | JObj fields =>
           ret (JsonResponse 200 (JObj (PyDict.merge [("ok", JBool true)] fields)))
       | _ => raise (Exn TypeError "object is not a mapping")
       end).

(** [RalphHandler.do_POST] *)
Definition do_POST (e : env) (req : request) : fs -> response * fs :=
  if bool_decide (req_path req = "/api/command") then handle_command e req
  else if bool_decide (req_path req = "/api/settings") then handle_settings e req
  else fun s => (ErrorPage 404 "Not Found", s).

End Server.

(** What [update_settings] does once the file has been read and the loop
    has run: the last three lines of the function. *)
Definition after_loop (SCRIPT_DIR : path) (e : env) (s : fs)
    (looped : string * list string) : result json * fs :=
  if bool_decide (snd looped = [])
  then (Ok (JObj [("updated", JArr [])]), s)
  else match atomic_write e (CONFIG_FILE SCRIPT_DIR) (fst looped) s with
       | (Ok _, s') => (Ok (JObj [("updated", JArr (map JStr (snd looped)))]), s')
       | (Raise ex, s') => (Raise ex, s')
       end.

(** ** A small deployment to run the model on *)

Module Sample.

Definition quoted (s : string) : string := dq +:+ s +:+ dq.

Definition script_dir : path := ["srv"; "ralph"; ".ralph"].

(** An operating system that behaves, and one whose disk fills up
    after three characters. *)
Definition quiet : env :=
  Env None None ["k3x9q2ab"; "p0w7mzc4"] None None None.
Definition disk_full : env :=
  Env None None ["k3x9q2ab"; "p0w7mzc4"] None
      (Some (3, "No space left on device")) None.

Definition control_tree : gset path :=
  list_to_set (ancestors_or_self (script_dir ++ ["control"])).
Definition config_tree : gset path :=
  list_to_set (ancestors_or_self (script_dir ++ ["config"])).

Definition empty_disk : fs := Fs ∅ ∅.

Definition conf_text : string :=
  unlines [ "# operator settings";
            "RALPH_MODE=" +:+ quoted "auto";
            "RALPH_MIN_DELAY_SECONDS=5";
            "PROJECT_NAME=demo";
            "" ].

Definition conf_disk : fs :=
  Fs {[ CONFIG_FILE script_dir := conf_text ]} config_tree.

Definition pause : json := JObj [("command", JStr "pause")].
Definition skip_task : json :=
  JObj [("command", JStr "skip-task"); ("task", JInt 12)].

Definition queue_doc : list (string * json) :=
  [("pending", JArr [skip_task]); ("note", JStr "drained at noon")].

Definition queue_disk : fs :=
  Fs {[ CONTROL_FILE script_dir := PyJson.dumps (JObj queue_doc) +:+ nl ]}
     control_tree.

Definition corrupt_queue_disk : fs :=
  Fs {[ CONTROL_FILE script_dir := "{not json" ]} control_tree.

Definition post (p body : string) : request :=
  Request p (Length (String.length body)) body.

Definition post_pause : request :=
  post "/api/command" ("{" +:+ quoted "command" +:+ ": " +:+ quoted "pause" +:+ "}").

Definition mode_debug : list (string * json) :=
  [("RALPH_MODE", JStr "debug"); ("UNKNOWN_KEY", JStr "x")].

Definition post_mode_debug : request :=
  post "/api/settings"
    ("{" +:+ quoted "RALPH_MODE" +:+ ": " +:+ quoted "debug" +:+ ", "
         +:+ quoted "UNKNOWN_KEY" +:+ ": " +:+ quoted "x" +:+ "}").

(** A value that ends in a newline. *)
Definition mode_newline : json := JObj [("RALPH_MODE", JStr ("debug" +:+ nl))].

(** The same kind of settings file as it comes from an editor that ends
    lines with a carriage return and a newline, and one in which a lone
    carriage return separates two settings. *)
Definition crlf_text : string :=
  "RALPH_MODE=" +:+ quoted "auto" +:+ cr +:+ nl +:+
  "PROJECT_NAME=demo" +:+ cr +:+ nl.

Definition crlf_disk : fs :=
  Fs {[ CONFIG_FILE script_dir := crlf_text ]} config_tree.

Definition cr_text : string :=
  "PROJECT_NAME=demo" +:+ cr +:+ "RALPH_MODE=old" +:+ nl.

Definition cr_disk : fs :=
  Fs {[ CONFIG_FILE script_dir := cr_text ]} config_tree.

End Sample.

(** ** More requests and disks for the sample deployment *)

Module Traffic.
Import Sample.

Definition post_nothing : request := Request "/api/command" NoHeader "".
Definition post_garbage : request := post "/api/command" "{oops".
Definition post_number : request := post "/api/command" "42".
Definition post_empty_settings : request := post "/api/settings" "{}".
Definition post_list_settings : request := post "/api/settings" "[1]".
Definition post_bad_length : request := Request "/api/settings" NotANumber "{}".
Definition post_elsewhere : request := post "/api/unknown" "{}".

(** A queue file that is JSON but no queue: [pending] is a number. *)
Definition odd_queue_disk : fs :=
  Fs {[ CONTROL_FILE script_dir := "{" +:+ quoted "pending" +:+ ": 3}" ]} control_tree.


Definition delay_and_turns : list (string * json) :=
  [("RALPH_MIN_DELAY_SECONDS", JInt 30); ("RALPH_DEFAULT_MAX_TURNS", JInt 9);
   ("RALPH_MODE", JStr "semi auto"); ("PROJECT_NAME", JStr "other")].

(** A body of one byte that is not UTF-8. *)
Definition post_undecodable : request :=
  post "/api/command" (String "255"%char "").

(** An integer of 4301 digits, and a payload that holds it after a
    setting that would apply. *)
Definition huge : Z := 10 ^ 4300.

Definition mode_then_huge : list (string * json) :=
  [("RALPH_MODE", JStr "debug"); ("RALPH_MIN_DELAY_SECONDS", JInt huge)].

End Traffic.

(** ** Notions used to state further properties *)

Definition status_of (r : response) : nat :=
  match r with
  | JsonResponse status _ => status
  | ErrorPage status _ => status
  end.

(** What [enqueue_command] can append to: an object whose [pending], if
    it has one, is a list. *)
Definition is_queue_document (doc : json) : bool :=
  match doc with
  | JObj kvs =>
      match PyDict.get "pending" kvs with
      | None | Some (JArr _) => true
      | Some _ => false
      end
  | _ => false
  end.

(** [str(value)] returns a text that passes the sanitizer. *)
Definition passes_sanitizer (value : json) : bool :=
  match py_str value with
  | Ok safe_value => safe_value_match safe_value
  | Raise _ => false
  end.

(** The three tests of the loop body, taken on a given text: the key is
    allow-listed, the value passes the sanitizer, the key has a line. *)
Definition applies (content : string) (kv : string * json) : bool :=
  allowed (fst kv) && passes_sanitizer (snd kv) &&
  pattern_search (fst kv) content.

(** [str(value)] returns for every value the loop takes the text of: the
    values of the allow-listed keys.  A payload that [json.loads] made
    is of this kind, since the digit limit applies to its integer
    literals as well. *)
Definition has_text (value : json) : bool :=
  match py_str value with
  | Ok _ => true
  | Raise _ => false
  end.

Definition values_have_text (items : list (string * json)) : bool :=
  forallb (fun kv => negb (allowed (fst kv)) || has_text (snd kv)) items.

(** The in-memory part of [enqueue_command]: the membership test, the
    default for a missing [pending] and the append, on the document that
    was loaded. *)
Definition enqueue_pure (control command_obj : json) : result json :=
  match py_contains "pending" control with
  | Raise ex => Raise ex
  | Ok present =>
      match (if negb present then py_setitem control "pending" (JArr [])
             else Ok control) with
      | Raise ex => Raise ex
      | Ok control' => py_append_at control' "pending" command_obj
      end
  end.


Section Requests.
Context {codec : JsonCodec}.
Variable SCRIPT_DIR : path.


End Requests.

(** * Properties *)

(** ** Lines of a text *)

Section TextFacts.

Lemma lines_nonempty s : lines s ≠ [].
Proof.
  induction s as [|c s IH]; simpl; [done|].
  case_decide; [done|]. by destruct (lines s).
Qed.

Lemma unlines_lines s : unlines (lines s) = s.
Proof.
  induction s as [|c s IH]; simpl; [done|].
  pose proof (lines_nonempty s) as Hne.
  case_decide as Hc.
  - subst c. destruct (lines s) as [|l ls]; [done|].
    simpl in *. by rewrite IH.
  - destruct (lines s) as [|l ls]; [done|].
    destruct ls; simpl in *; by rewrite <- IH.
Qed.

Lemma lines_app_nl a b : lines (a +:+ String NL b) = lines a ++ lines b.
Proof.
  induction a as [|c a IH]; simpl.
  - done.
  - case_decide; rewrite IH; [done|].
    pose proof (lines_nonempty a). by destruct (lines a).
Qed.

Lemma lines_unlines ls : ls ≠ [] → lines (unlines ls) = concat (map lines ls).
Proof.
  induction ls as [|l ls IH]; [done|]. intros _.
  destruct ls as [|l' ls'].
  - simpl. by rewrite app_nil_r.
  - change (unlines (l :: l' :: ls')) with (l +:+ String NL (unlines (l' :: ls'))).
    rewrite lines_app_nl, IH; done.
Qed.

Lemma lines_no_nl s : Forall (fun l => has_char NL l = false) (lines s).
Proof.
  induction s as [|c s IH]; simpl; [by repeat constructor|].
  case_decide as Hc; [by constructor|].
  pose proof (lines_nonempty s).
  destruct (lines s) as [|l ls]; [done|].
  inversion IH; subst. constructor; [|done].
  simpl. by rewrite decide_False.
Qed.

Lemma lines_single l : has_char NL l = false → lines l = [l].
Proof.
  induction l as [|c l IH]; simpl; [done|].
  case_decide as Hc; [done|]. intros H.
  destruct (decide (c = NL)); [done|]. by rewrite IH.
Qed.

Lemma has_char_app c a b : has_char c (a +:+ b) = has_char c a || has_char c b.
Proof. induction a as [|x a IH]; simpl; [done|]. by case_decide. Qed.

Lemma starts_with_app p a b : starts_with (p +:+ a) (p +:+ b) = starts_with a b.
Proof. induction p as [|c p IH]; simpl; [done|]. by rewrite decide_True. Qed.

Lemma starts_with_refl_app p b : starts_with p (p +:+ b) = true.
Proof. induction p as [|c p IH]; simpl; [done|]. by rewrite decide_True. Qed.

Lemma universal_newlines_cr c s :
  c ≠ NL →
  universal_newlines (String CR (String c s))
  = String NL (universal_newlines (String c s)).
Proof.
  intros Hc.
  change (universal_newlines (String CR (String c s)))
    with (if decide (c = NL) then String NL (universal_newlines s)
          else String NL (universal_newlines (String c s))).
  by rewrite decide_False.
Qed.

Lemma universal_newlines_other c s :
  c ≠ CR → universal_newlines (String c s) = String c (universal_newlines s).
Proof.
  intros Hc.
  change (universal_newlines (String c s))
    with (if decide (c = CR)
          then match s with
               | String c' s'' =>
                   if decide (c' = NL) then String NL (universal_newlines s'')
                   else String NL (universal_newlines s)
               | EmptyString => String NL EmptyString
               end
          else String c (universal_newlines s)).
  by rewrite decide_False.
Qed.

(** Text mode leaves no carriage return, and leaves a text without one
    as it is. *)
Lemma universal_newlines_no_cr s : has_char CR (universal_newlines s) = false.
Proof.
  assert (∀ n s, String.length s ≤ n → has_char CR (universal_newlines s) = false)
    as Hall; [|by apply (Hall (String.length s))].
  clear s. induction n as [|n IH]; intros [|c s] Hlen; simpl in Hlen;
    try done; [lia|].
  destruct (decide (c = CR)) as [->|Hc].
  - destruct s as [|c' s']; [done|]. simpl in Hlen.
    destruct (decide (c' = NL)) as [->|Hc'].
    + transitivity (has_char CR (universal_newlines s')); [done|]. apply IH. lia.
    + rewrite universal_newlines_cr by done.
      transitivity (has_char CR (universal_newlines (String c' s'))); [done|].
      apply IH. simpl. lia.
  - rewrite universal_newlines_other by done.
    cbn [has_char]. rewrite decide_False by done. apply IH. lia.
Qed.

Lemma universal_newlines_plain s : has_char CR s = false → universal_newlines s = s.
Proof.
  induction s as [|c s IH]; [done|]. cbn [has_char].
  case_decide as Hc; [done|]. intros H.
  rewrite universal_newlines_other by done. by rewrite IH.
Qed.

Lemma universal_newlines_idemp s :
  universal_newlines (universal_newlines s) = universal_newlines s.
Proof. apply universal_newlines_plain, universal_newlines_no_cr. Qed.

Lemma app_assoc_str a b c : (a +:+ b) +:+ c = a +:+ (b +:+ c).
Proof. induction a as [|x a IH]; simpl; congruence. Qed.

End TextFacts.

(** ** File-system primitives *)

Section MonadFacts.

Lemma bind_ok {A B} (m : M A) (k : A → M B) s a s' :
  m s = (Ok a, s') → bind m k s = k a s'.
Proof. unfold bind. by intros ->. Qed.

Lemma bind_raise {A B} (m : M A) (k : A → M B) s ex s' :
  m s = (Raise ex, s') → bind m k s = (Raise ex, s').
Proof. unfold bind. by intros ->. Qed.

Lemma lift_ok {A} (r : result A) a s : r = Ok a → lift r s = (Ok a, s).
Proof. by intros ->. Qed.

End MonadFacts.

(** Run the first action of a [do] block, given how it ends. *)
Ltac run_ok H := etrans; [eapply bind_ok; exact H|]; cbv beta.
Ltac run_ok_by tac := etrans; [eapply bind_ok; tac|]; cbv beta.

Section FsFacts.

Lemma read_text_ok e p s c :
  read_fault e = None → files s !! p = Some c →
  read_text e p s = (Ok (universal_newlines c), s).
Proof.
  intros He Hf. unfold read_text. rewrite He.
  unfold bind, get_fs. by rewrite Hf.
Qed.

Lemma mkdir_p_ok e d s s' :
  mkdir_p e d s = (Ok tt, s') →
  s' = Fs (files s) (dirs s ∪ list_to_set (ancestors_or_self d)).
Proof.
  unfold mkdir_p, os_error, raise, bind, get_fs, put_fs.
  destruct (mkdir_fault e); [done|].
  destruct (existsb _ _); [done|]. by intros [= <-].
Qed.

Lemma mkdir_p_raise e d s ex s' : mkdir_p e d s = (Raise ex, s') → s' = s.
Proof.
  unfold mkdir_p, os_error, raise, bind, get_fs, put_fs.
  destruct (mkdir_fault e); [by intros [= _ <-]|].
  destruct (existsb _ _); [by intros [= _ <-]|done].
Qed.

Lemma mkdir_p_files e d s r s' : mkdir_p e d s = (r, s') → files s' = files s.
Proof.
  destruct r as [[]|ex]; intros H.
  - by rewrite (mkdir_p_ok _ _ _ _ H).
  - by rewrite (mkdir_p_raise _ _ _ _ _ H).
Qed.

Lemma mkdir_p_succeeds e d s :
  mkdir_fault e = None →
  forallb (fun a => negb (bool_decide (is_Some (files s !! a)))) (ancestors_or_self d) = true →
  mkdir_p e d s = (Ok tt, Fs (files s) (dirs s ∪ list_to_set (ancestors_or_self d))).
Proof.
  intros He Hf. unfold mkdir_p, bind, get_fs, put_fs. rewrite He.
  destruct (existsb _ _) eqn:Hex; [|done].
  apply existsb_exists in Hex as (a & Ha & Hfile).
  rewrite forallb_forall in Hf. specialize (Hf a Ha).
  by rewrite Hfile in Hf.
Qed.

Lemma mkstemp_loop_ok d stems s p s' :
  mkstemp_loop d stems s = (Ok p, s') →
  (∃ stem, stem ∈ stems ∧ p = d ++ [tmp_name stem]) ∧
  path_exists s p = false ∧
  d ∈ dirs s ∧
  s' = Fs (<[p := ""]> (files s)) (dirs s).
Proof.
  induction stems as [|stem rest IH]; simpl; [done|].
  unfold bind, get_fs, put_fs, ret, os_error, raise.
  case_bool_decide as Hdir; simpl; [|done].
  destruct (path_exists s (d ++ [tmp_name stem])) eqn:Hex.
  - intros H. destruct (IH H) as ((st & Hin & ->) & Hfree & _ & ->).
    split; [|done]. exists st. split; [by right|done].
  - intros [= <- <-]. split; [|done]. exists stem. split; [by left|done].
Qed.

Lemma mkstemp_loop_raise d stems s ex s' :
  mkstemp_loop d stems s = (Raise ex, s') → s' = s.
Proof.
  induction stems as [|stem rest IH]; simpl.
  - by intros [= _ <-].
  - unfold bind, get_fs, put_fs, ret, os_error, raise.
    case_bool_decide; simpl; [|by intros [= _ <-]].
    by destruct (path_exists s (d ++ [tmp_name stem])).
Qed.

Lemma mkstemp_loop_succeeds d stems s :
  d ∈ dirs s →
  existsb (fun stem => negb (path_exists s (d ++ [tmp_name stem]))) stems = true →
  ∃ p, mkstemp_loop d stems s = (Ok p, Fs (<[p := ""]> (files s)) (dirs s)).
Proof.
  intros Hdir.
  induction stems as [|stem rest IH]; simpl; [done|].
  unfold bind, get_fs, put_fs, ret.
  rewrite bool_decide_eq_true_2 by done. simpl.
  destruct (path_exists s (d ++ [tmp_name stem])) eqn:Hex; simpl; [done|].
  intros _. by eexists.
Qed.

Lemma mkstemp_ok e d s p s' :
  mkstemp e d s = (Ok p, s') →
  (∃ stem, p = d ++ [tmp_name stem]) ∧
  path_exists s p = false ∧
  d ∈ dirs s ∧
  s' = Fs (<[p := ""]> (files s)) (dirs s).
Proof.
  unfold mkstemp. destruct (mkstemp_fault e); [done|].
  intros H. destruct (mkstemp_loop_ok _ _ _ _ _ H) as ((st & _ & ->) & ? & ? & ?).
  eauto.
Qed.

Lemma mkstemp_raise e d s ex s' : mkstemp e d s = (Raise ex, s') → s' = s.
Proof.
  unfold mkstemp. destruct (mkstemp_fault e); [by intros [= _ <-]|].
  apply mkstemp_loop_raise.
Qed.

Lemma path_exists_false s p :
  path_exists s p = false → files s !! p = None ∧ p ∉ dirs s.
Proof.
  unfold path_exists. intros [H1 H2]%orb_false_elim.
  apply bool_decide_eq_false in H1, H2.
  split; [|done]. by apply eq_None_not_Some.
Qed.

(** The guarded part of [atomic_write], started with the temporary file
    freshly created. *)
Lemma guarded_block (e : env) (tmp dst : path) (data : string)
    (F : gmap path string) (D : gset path) :
  F !! tmp = None →
  parent dst ∈ D →
  try_except
    (run write_text e tmp data; os_replace e tmp dst)
    (fun ex => run os_unlink tmp; raise ex)
    (Fs (<[tmp := ""]> F) D) =
  match write_fault e with
  | Some (n, msg) => (Raise (Exn OSError msg), Fs F D)
  | None =>
      match replace_fault e with
      | Some msg => (Raise (Exn OSError msg), Fs F D)
      | None =>
          if bool_decide (dst ∈ D)
          then (Raise (Exn OSError "Is a directory"), Fs F D)
          else (Ok tt, Fs (<[dst := data]> F) D)
      end
  end.
Proof.
  intros Hfresh Hparent.
  unfold try_except, write_text, os_replace, os_unlink, os_error, raise,
    bind, get_fs, put_fs; simpl.
  destruct (write_fault e) as [[n msg]|]; simpl.
  { rewrite lookup_insert_eq, insert_insert_eq, delete_insert_eq.
    by rewrite delete_id. }
  destruct (replace_fault e) as [msg|]; simpl.
  { rewrite lookup_insert_eq, insert_insert_eq, delete_insert_eq.
    by rewrite delete_id. }
  rewrite (bool_decide_eq_true_2 _ Hparent). simpl.
  destruct (bool_decide (dst ∈ D)); simpl.
  { rewrite lookup_insert_eq, insert_insert_eq, delete_insert_eq.
    by rewrite delete_id. }
  rewrite lookup_insert_eq, insert_insert_eq, delete_insert_eq.
  by rewrite delete_id.
Qed.

Lemma atomic_write_unfold e p data s :
  atomic_write e p data s =
  match mkdir_p e (parent p) s with
  | (Raise ex, s1) => (Raise ex, s1)
  | (Ok _, s1) =>
      match mkstemp e (parent p) s1 with
      | (Raise ex, s2) => (Raise ex, s2)
      | (Ok tmp, s2) =>
          try_except
            (run write_text e tmp data; os_replace e tmp p)
            (fun ex => run os_unlink tmp; raise ex) s2
      end
  end.
Proof. reflexivity. Qed.

(** Whatever happens, [atomic_write] either fails and leaves every file
    as it was, or succeeds and changes the target alone. *)
Lemma atomic_write_files e p data s r s' :
  atomic_write e p data s = (r, s') →
  (∃ ex, r = Raise ex ∧ files s' = files s) ∨
  (r = Ok tt ∧ files s' = <[p := data]> (files s)).
Proof.
  rewrite atomic_write_unfold.
  destruct (mkdir_p e (parent p) s) as [[[]|ex1] s1] eqn:Hmk.
  2:{ intros [= <- <-]. left. eexists. split; [done|].
      by rewrite (mkdir_p_raise _ _ _ _ _ Hmk). }
  pose proof (mkdir_p_files _ _ _ _ _ Hmk) as Hf1.
  destruct (mkstemp e (parent p) s1) as [[tmp|ex2] s2] eqn:Hmt.
  2:{ intros [= <- <-]. left. eexists. split; [done|].
      by rewrite (mkstemp_raise _ _ _ _ _ Hmt). }
  destruct (mkstemp_ok _ _ _ _ _ Hmt) as (_ & Hfree & Hdir & ->).
  apply path_exists_false in Hfree as [Hfree _].
  rewrite (guarded_block _ _ _ _ _ _ Hfree Hdir).
  destruct (write_fault e) as [[n msg]|].
  { intros [= <- <-]. left. eexists. by split. }
  destruct (replace_fault e) as [msg|].
  { intros [= <- <-]. left. eexists. by split. }
  destruct (bool_decide (p ∈ dirs s1)).
  { intros [= <- <-]. left. eexists. by split. }
  intros [= <- <-]. right. simpl. by rewrite Hf1.
Qed.

End FsFacts.

(** ** [atomic_write] *)

Section AtomicWrite.

Lemma not_ancestor (d : path) (x : string) : d ++ [x] ∉ ancestors_or_self d.
Proof.
  unfold ancestors_or_self. rewrite list_elem_of_In, in_map_iff.
  intros (n & Hn & _). apply (f_equal length) in Hn.
  rewrite length_take, length_app in Hn. simpl in Hn. lia.
Qed.

Lemma self_ancestor (d : path) : d ∈ ancestors_or_self d.
Proof.
  unfold ancestors_or_self. rewrite list_elem_of_In, in_map_iff.
  exists (length d). split; [apply firstn_all|].
  apply in_seq. lia.
Qed.

Lemma path_exists_after_mkdir (s : fs) (d : path) (x : string) :
  path_exists (Fs (files s) (dirs s ∪ list_to_set (ancestors_or_self d))) (d ++ [x])
  = path_exists s (d ++ [x]).
Proof.
  unfold path_exists; simpl. f_equal.
  apply bool_decide_ext. rewrite elem_of_union.
  pose proof (not_ancestor d x) as Hna.
  rewrite <- (elem_of_list_to_set (C:=gset path)) in Hna. tauto.
Qed.

Lemma existsb_pointwise {A} (f g : A → bool) l :
  (∀ a, f a = g a) → existsb f l = existsb g l.
Proof. intros H. induction l as [|a l IH]; simpl; [done|]. by rewrite H, IH. Qed.

Lemma fault_free_fields e :
  fault_free e = true →
  mkdir_fault e = None ∧ read_fault e = None ∧ mkstemp_fault e = None ∧
  write_fault e = None ∧ replace_fault e = None.
Proof.
  unfold fault_free. rewrite !andb_true_iff, !bool_decide_eq_true. tauto.
Qed.

Lemma atomic_write_succeeds e s (d : path) (name data : string) :
  writable e s (d ++ [name]) = true →
  atomic_write e (d ++ [name]) data s =
    (Ok tt, Fs (<[d ++ [name] := data]> (files s))
               (dirs s ∪ list_to_set (ancestors_or_self d))).
Proof.
  unfold writable. rewrite !andb_true_iff, negb_true_iff, bool_decide_eq_false.
  unfold parent. rewrite removelast_last.
  intros (((Hff & Hanc) & Hdir) & Hfresh).
  apply fault_free_fields in Hff as (Hmk & _ & Hmt & Hw & Hr).
  rewrite atomic_write_unfold. unfold parent. rewrite removelast_last.
  rewrite (mkdir_p_succeeds _ _ _ Hmk Hanc).
  unfold mkstemp. rewrite Hmt.
  set (s1 := Fs (files s) (dirs s ∪ list_to_set (ancestors_or_self d))).
  assert (existsb (fun stem => negb (path_exists s1 (d ++ [tmp_name stem])))
            (tmp_candidates e) = true) as Hfresh1.
  { rewrite <- Hfresh. apply existsb_pointwise. intros stem.
    unfold s1. by rewrite path_exists_after_mkdir. }
  assert (d ∈ dirs s1) as Hmade.
  { change (d ∈ dirs s ∪ list_to_set (ancestors_or_self d)).
    apply elem_of_union. right.
    apply (elem_of_list_to_set (C:=gset path)), self_ancestor. }
  destruct (mkstemp_loop_succeeds _ _ _ Hmade Hfresh1) as [tmp Htmp].
  rewrite Htmp.
  destruct (mkstemp_loop_ok _ _ _ _ _ Htmp) as (_ & Hfree & _).
  apply path_exists_false in Hfree as [Hfree _].
  rewrite guarded_block, Hw, Hr;
    [|done|unfold parent; by rewrite removelast_last].
  rewrite bool_decide_eq_false_2; [done|].
  simpl. rewrite elem_of_union.
  pose proof (not_ancestor d name) as Hna.
  rewrite <- (elem_of_list_to_set (C:=gset path)) in Hna. tauto.
Qed.

(** C1. When [atomic_write] fails in a step that precedes the replace
    (creating the directory, creating the temporary file, writing the
    content), the caller gets that very exception, every file is as it
    was before the call, so the target is unmodified, and the temporary
    file, if one was created, is gone. *)
Theorem atomic_write_failure_before_replace
    (e : env) (filepath : path) (data : string) (s : fs) (ex : exn) :
  fails_before_replace e filepath data s ex →
  ∃ s', atomic_write e filepath data s = (Raise ex, s') ∧
        files s' !! filepath = files s !! filepath ∧
        files s' = files s ∧
        (∀ tmp, created_tmp e filepath s = Some tmp → files s' !! tmp = None).
Proof.
  intros [(s1 & Hmk)|[(s1 & s2 & Hmk & Hmt)|(s1 & tmp & s2 & s3 & Hmk & Hmt & Hw)]];
    rewrite atomic_write_unfold; unfold created_tmp; rewrite Hmk.
  - exists s1. rewrite (mkdir_p_raise _ _ _ _ _ Hmk). done.
  - rewrite Hmt. exists s2.
    rewrite (mkstemp_raise _ _ _ _ _ Hmt), (mkdir_p_files _ _ _ _ _ Hmk). done.
  - rewrite Hmt.
    destruct (mkstemp_ok _ _ _ _ _ Hmt) as (_ & Hfree & Hdir & ->).
    apply path_exists_false in Hfree as [Hfree _].
    rewrite (guarded_block _ _ _ _ _ _ Hfree Hdir).
    revert Hw. unfold write_text, bind, get_fs, put_fs, os_error, raise.
    destruct (write_fault e) as [[n msg]|]; [|done].
    intros [= <- _]. eexists. split; [done|]. simpl.
    rewrite <- (mkdir_p_files _ _ _ _ _ Hmk).
    split_and!; [done|done|]. by intros ? [= <-].
Qed.

Lemma atomic_write_trace_last e p data s0 :
  last (atomic_write_trace e p data s0) = Some (snd (atomic_write e p data s0)).
Proof.
  rewrite atomic_write_unfold. unfold atomic_write_trace.
  destruct (mkdir_p e (parent p) s0) as [[[]|ex1] s1]; [|done].
  destruct (mkstemp e (parent p) s1) as [[tmp|ex2] s2]; [|done].
  rewrite !last_cons, last_app. simpl.
  by destruct (try_except _ _ s2).
Qed.

Lemma trace_old_or_new e (d : path) (name data : string) s0 st :
  (∀ stem, name ≠ tmp_name stem) →
  st ∈ atomic_write_trace e (d ++ [name]) data s0 →
  files st !! (d ++ [name]) = files s0 !! (d ++ [name]) ∨
  files st !! (d ++ [name]) = Some data.
Proof.
  intros Hname. unfold atomic_write_trace, parent. rewrite removelast_last.
  rewrite elem_of_cons. intros [->|Hin]; [by left|].
  destruct (mkdir_p e d s0) as [[[]|ex1] s1] eqn:Hmk.
  2:{ apply list_elem_of_singleton in Hin as ->.
      left. by rewrite (mkdir_p_raise _ _ _ _ _ Hmk). }
  pose proof (mkdir_p_files _ _ _ _ _ Hmk) as Hf1.
  apply elem_of_cons in Hin as [->|Hin]; [left; by rewrite Hf1|].
  destruct (mkstemp e d s1) as [[tmp|ex2] s2] eqn:Hmt.
  2:{ apply list_elem_of_singleton in Hin as ->.
      left. by rewrite (mkstemp_raise _ _ _ _ _ Hmt), Hf1. }
  destruct (mkstemp_ok _ _ _ _ _ Hmt) as ((stem & ->) & Hfree & Hdir & ->).
  apply path_exists_false in Hfree as [Hfree _].
  assert (d ++ [tmp_name stem] ≠ d ++ [name]) as Hne.
  { intros Heq%app_inv_head. injection Heq as Heq. by apply (Hname stem). }
  apply elem_of_cons in Hin as [->|Hin].
  { left. simpl. by rewrite lookup_insert_ne, Hf1. }
  apply elem_of_app in Hin as [Hin|Hin].
  { apply list_elem_of_In, in_map_iff in Hin as (k & <- & _).
    left. simpl. by rewrite !lookup_insert_ne, Hf1. }
  apply list_elem_of_singleton in Hin as ->.
  rewrite guarded_block; [|done|unfold parent; by rewrite removelast_last].
  destruct (write_fault e) as [[n msg]|]; [left; simpl; by rewrite Hf1|].
  destruct (replace_fault e) as [msg|]; [left; simpl; by rewrite Hf1|].
  destruct (bool_decide _); [left; simpl; by rewrite Hf1|].
  right. simpl. apply lookup_insert_eq.
Qed.

Lemma tmp_name_starts_with_t stem : starts_with "t" (tmp_name stem) = true.
Proof. reflexivity. Qed.

(** C10. A reader of the queue file or of the settings file that races
    an update sees, at every moment of the update, either what the file
    held before the call or the complete new content. *)
Theorem reader_sees_old_or_new
    (SCRIPT_DIR : path) (e : env) (target : path) (data : string) (s0 st : fs) :
  target ∈ [CONTROL_FILE SCRIPT_DIR; CONFIG_FILE SCRIPT_DIR] →
  st ∈ atomic_write_trace e target data s0 →
  files st !! target = files s0 !! target ∨ files st !! target = Some data.
Proof.
  intros Htarget.
  assert (∃ d name, target = d ++ [name] ∧ starts_with "t" name = false)
    as (d & name & -> & Hname).
  { apply elem_of_cons in Htarget as [->|Htarget].
    - exists (SCRIPT_DIR ++ ["control"]), "commands.json".
      unfold CONTROL_FILE. by rewrite <- app_assoc.
    - apply list_elem_of_singleton in Htarget as ->.
      exists (SCRIPT_DIR ++ ["config"]), "ralph.conf".
      unfold CONFIG_FILE. by rewrite <- app_assoc. }
  apply trace_old_or_new. intros stem ->.
  by rewrite tmp_name_starts_with_t in Hname.
Qed.

End AtomicWrite.

(** ** Python dictionaries *)

Section DictFacts.

Lemma has_get k kvs : PyDict.has k kvs = bool_decide (is_Some (PyDict.get k kvs)).
Proof.
  induction kvs as [|[k' v] kvs IH]; simpl; [done|].
  by case_decide.
Qed.

Lemma get_set_eq k v kvs : PyDict.get k (PyDict.set k v kvs) = Some v.
Proof.
  induction kvs as [|[k' v'] kvs IH]; simpl.
  - by rewrite decide_True.
  - case_decide; simpl; [by rewrite decide_True|by rewrite decide_False].
Qed.




End DictFacts.

(** ** [enqueue_command] *)

Section Enqueue.
Context {codec : JsonCodec}.
Variable SCRIPT_DIR : path.

Local Abbreviation CF := (CONTROL_FILE SCRIPT_DIR).
Local Abbreviation control_dir := (SCRIPT_DIR ++ ["control"]).

Lemma control_file_split : CF = control_dir ++ ["commands.json"].
Proof. unfold CONTROL_FILE. by rewrite <- app_assoc. Qed.

Lemma control_parent : parent CF = control_dir.
Proof. rewrite control_file_split. apply removelast_last. Qed.

Lemma writable_preserved e s s' (d : path) (name : string) :
  writable e s (d ++ [name]) = true →
  (∀ p, p ≠ d ++ [name] → files s' !! p = files s !! p) →
  dirs s' = dirs s ∪ list_to_set (ancestors_or_self d) →
  (∀ stem, name ≠ tmp_name stem) →
  writable e s' (d ++ [name]) = true.
Proof.
  unfold writable, parent. rewrite removelast_last.
  rewrite !andb_true_iff, !negb_true_iff, !bool_decide_eq_false.
  intros (((Hff & Hanc) & Hdir) & Hfresh) Hfiles Hdirs Hname.
  split_and!; [done|..].
  - rewrite forallb_forall in Hanc |- *. intros a Ha.
    rewrite Hfiles; [by apply Hanc|].
    intros ->. by apply (not_ancestor d name), list_elem_of_In.
  - rewrite Hdirs, elem_of_union.
    pose proof (not_ancestor d name) as Hna.
    rewrite <- (elem_of_list_to_set (C:=gset path)) in Hna. tauto.
  - rewrite <- Hfresh. apply existsb_pointwise. intros stem. f_equal.
    unfold path_exists. rewrite Hfiles, Hdirs.
    2:{ intros Heq%app_inv_head. injection Heq as Heq. by apply (Hname stem). }
    f_equal. apply bool_decide_ext. rewrite elem_of_union.
    pose proof (not_ancestor d (tmp_name stem)) as Hna.
    rewrite <- (elem_of_list_to_set (C:=gset path)) in Hna. tauto.
Qed.



Lemma writable_read_fault e s p : writable e s p = true → read_fault e = None.
Proof.
  unfold writable. rewrite !andb_true_iff.
  intros (((Hff & _) & _) & _). by apply fault_free_fields in Hff as (_ & ? & _).
Qed.





(** A queue file that does not parse: [enqueue_command] raises what
    [json.load] raised and no file changes. *)
Lemma enqueue_corrupt e s text ex (c : json) :
  files s !! CF = Some text →
  json_loads (universal_newlines text) = Raise ex →
  mkdir_fault e = None →
  read_fault e = None →
  forallb (fun a => negb (bool_decide (is_Some (files s !! a))))
          (ancestors_or_self control_dir) = true →
  ∃ s', enqueue_command SCRIPT_DIR e c s = (Raise ex, s') ∧
        files s' = files s.
Proof.
  intros Hfile Hload Hmk Hrf Hanc.
  set (s1 := Fs (files s) (dirs s ∪ list_to_set (ancestors_or_self control_dir))).
  exists s1. split; [|done].
  unfold enqueue_command. rewrite control_parent.
  run_ok (mkdir_p_succeeds _ _ _ Hmk Hanc).
  run_ok (eq_refl : get_fs s1 = (Ok s1, s1)).
  apply bind_raise.
  assert (path_exists s1 CF = true) as ->.
  { unfold path_exists. simpl. rewrite Hfile.
    rewrite bool_decide_eq_true_2; [done|eauto]. }
  unfold json_load.
  run_ok_by ltac:(apply read_text_ok; [exact Hrf|exact Hfile]).
  by rewrite Hload.
Qed.

End Enqueue.

(** ** The settings rewriter, on text *)

Section SettingsText.

Local Abbreviation EQ := ("="%char).

Lemma allowed_elim (P : string → Prop) k :
  allowed k = true →
  P "RALPH_VALIDATION_STRATEGY" → P "RALPH_COMPACTION_INTERVAL" →
  P "RALPH_COMPACTION_THRESHOLD_BYTES" → P "RALPH_DEFAULT_MAX_TURNS" →
  P "RALPH_MIN_DELAY_SECONDS" → P "RALPH_MODE" → P k.
Proof.
  unfold allowed, ALLOWED_SETTINGS. rewrite bool_decide_eq_true.
  intros H ? ? ? ? ? ?.
  repeat (apply elem_of_cons in H as [->|H]; [done|]).
  by apply elem_of_nil in H.
Qed.

Lemma allowed_no_eq k : allowed k = true → has_char EQ k = false.
Proof. intros H. by apply (allowed_elim (fun k => has_char EQ k = false) k). Qed.

Lemma allowed_no_nl k : allowed k = true → has_char NL k = false.
Proof. intros H. by apply (allowed_elim (fun k => has_char NL k = false) k). Qed.

(** Two different keys never own the same line. *)
Lemma key_line_unique k k' l :
  has_char EQ k = false → has_char EQ k' = false →
  key_line k l = true → key_line k' l = true → k = k'.
Proof.
  unfold key_line. revert k' l.
  induction k as [|a k IH]; intros [|a' k'] [|b l]; simpl; try done.
  - intros; repeat case_decide; by simplify_eq.
  - intros; repeat case_decide; by simplify_eq.
  - intros; repeat case_decide; simplify_eq. f_equal. by eapply IH.
Qed.

Lemma key_line_own k rest : key_line k (k +:+ String EQ rest) = true.
Proof.
  unfold key_line. induction k as [|a k IH]; simpl; [done|].
  by rewrite decide_True.
Qed.

Lemma key_line_new_line k sv : key_line k (new_line k sv) = true.
Proof. apply key_line_own. Qed.

Lemma in_class_not_nl c : in_class c = true → c ≠ NL.
Proof. by intros H ->. Qed.

Lemma all_in_class_no_nl b : all_in_class b = true → has_char NL b = false.
Proof.
  induction b as [|c b IH]; simpl; [done|].
  intros [Hc Hb]%andb_true_iff. rewrite decide_False; [by apply IH|].
  by apply in_class_not_nl.
Qed.

(** What passes the pattern holds characters of the class only, a
    newline apart. *)
Lemma match_only_class s c :
  safe_value_match s = true → has_char c s = true → in_class c = true ∨ c = NL.
Proof.
  induction s as [|a s IH]; simpl; [done|].
  intros [Ha Hrest]%andb_true_iff.
  case_decide as Hac; [subst; by left|].
  apply orb_true_iff in Hrest as [Hend|Hrest]; [|by apply IH].
  unfold at_dollar in Hend.
  apply orb_true_iff in Hend as [->%bool_decide_eq_true| ->%bool_decide_eq_true];
    simpl; [done|].
  case_decide; [by right|done].
Qed.

(** What the sanitizer lets through: a well-formed value, or one
    followed by a single newline. *)
Lemma safe_value_match_inv s :
  safe_value_match s = true →
  ∃ b, well_formed b = true ∧ (s = b ∨ s = b +:+ nl).
Proof.
  induction s as [|c s IH]; simpl; [done|].
  intros [Hc Hrest]%andb_true_iff.
  apply orb_true_iff in Hrest as [Hend|Hrest].
  - exists (String c ""). split; [unfold well_formed; simpl; by rewrite Hc|].
    unfold at_dollar in Hend.
    apply orb_true_iff in Hend as [->%bool_decide_eq_true| ->%bool_decide_eq_true];
      [by left|by right].
  - destruct (IH Hrest) as (b & Hb & Hs). exists (String c b). split.
    + unfold well_formed in *. simpl. rewrite Hc. simpl.
      by apply andb_true_iff in Hb as [_ ->].
    + destruct Hs as [->| ->]; [by left|by right].
Qed.

Lemma well_formed_match s : well_formed s = true → safe_value_match s = true.
Proof.
  unfold well_formed. intros [Hne Hall]%andb_true_iff.
  induction s as [|c s IH]; [done|]. simpl in *.
  apply andb_true_iff in Hall as [-> Hall]. simpl.
  destruct s as [|c' s']; [done|]. rewrite IH; [by rewrite orb_true_r|done|done].
Qed.

(** The lines of a replacement: one line for a well-formed value, that
    line broken in two when the value ends in a newline. *)
Lemma lines_new_line k sv :
  has_char NL k = false → safe_value_match sv = true →
  ∃ b, well_formed b = true ∧
       ((sv = b ∧ lines (new_line k sv) = [new_line k b]) ∨
        (sv = b +:+ nl ∧ lines (new_line k sv) = [k +:+ "=" +:+ dq +:+ b; dq])).
Proof.
  intros Hk (b & Hb & Hsv)%safe_value_match_inv. exists b. split; [done|].
  assert (has_char NL (k +:+ "=" +:+ dq +:+ b) = false) as Hfirst.
  { rewrite !has_char_app, Hk. simpl.
    apply all_in_class_no_nl. by apply andb_true_iff in Hb as [_ ?]. }
  destruct Hsv as [->| ->]; [left|right]; (split; [done|]).
  - apply lines_single. unfold new_line.
    rewrite <- !app_assoc_str, has_char_app, !app_assoc_str, Hfirst. done.
  - unfold new_line.
    replace (k +:+ "=" +:+ dq +:+ (b +:+ nl) +:+ dq)
      with ((k +:+ "=" +:+ dq +:+ b) +:+ String NL dq)
      by (by rewrite !app_assoc_str).
    rewrite lines_app_nl, (lines_single _ Hfirst). done.
Qed.

Lemma concat_map_singleton {A} (l : list A) : concat (map (fun x => [x]) l) = l.
Proof. induction l as [|x l IH]; simpl; congruence. Qed.

Lemma concat_map_compose {A} (f g : A → list A) l :
  concat (map g (concat (map f l))) = concat (map (fun x => concat (map g (f x))) l).
Proof.
  induction l as [|x l IH]; simpl; [done|].
  by rewrite map_app, concat_app, IH.
Qed.

Lemma filter_concat_map {A} (P : A → bool) (f : A → list A) l :
  List.filter P (concat (map f l)) = concat (map (fun x => List.filter P (f x)) l).
Proof.
  induction l as [|x l IH]; simpl; [done|].
  by rewrite List.filter_app, IH.
Qed.

Lemma existsb_filter {A} (P : A → bool) l :
  existsb P l = negb (bool_decide (List.filter P l = [])).
Proof.
  induction l as [|x l IH]; simpl; [done|].
  destruct (P x); simpl; [done|exact IH].
Qed.

Lemma pattern_sub_lines k sv c :
  lines (pattern_sub k sv c) = concat (map (sub_line k sv) (lines c)).
Proof.
  unfold pattern_sub. rewrite lines_unlines.
  2:{ pose proof (lines_nonempty c). by destruct (lines c). }
  rewrite map_map. f_equal.
  pose proof (lines_no_nl c) as Hnl.
  induction Hnl as [|l ls Hl _ IH]; simpl; [done|].
  rewrite IH. f_equal. unfold sub_line.
  destruct (key_line k l); [done|by apply lines_single].
Qed.

Lemma pattern_sub_no_match k sv c :
  pattern_search k c = false → pattern_sub k sv c = c.
Proof.
  unfold pattern_search, pattern_sub. intros H.
  rewrite <- (unlines_lines c) at 2. f_equal.
  induction (lines c) as [|l ls IH]; simpl in *; [done|].
  apply orb_false_elim in H as [-> H]. by rewrite IH.
Qed.

(** Rewriting [k1] leaves the lines of another key [k] as they are. *)
Lemma klines_sub_ne k k1 sv c :
  allowed k = true → allowed k1 = true → k ≠ k1 →
  safe_value_match sv = true →
  List.filter (key_line k) (lines (pattern_sub k1 sv c))
  = List.filter (key_line k) (lines c).
Proof.
  intros Hk Hk1 Hne Hsv.
  rewrite pattern_sub_lines, filter_concat_map.
  rewrite <- (concat_map_singleton (lines c)) at 2.
  rewrite filter_concat_map. f_equal. apply map_ext. intros l.
  unfold sub_line. destruct (key_line k1 l) eqn:Hl; [|done].
  assert (key_line k l = false) as Hkl.
  { destruct (key_line k l) eqn:Hkl; [|done]. exfalso. apply Hne.
    eapply key_line_unique; eauto using allowed_no_eq. }
  simpl. rewrite Hkl.
  destruct (lines_new_line k1 sv (allowed_no_nl _ Hk1) Hsv)
    as (b & Hb & [[-> ->]|[-> ->]]); simpl.
  - destruct (key_line k (new_line k1 b)) eqn:Hx; [|done].
    exfalso. apply Hne.
    eapply key_line_unique; eauto using allowed_no_eq, key_line_new_line.
  - assert (key_line k dq = false) as ->.
    { unfold key_line. destruct k as [|a k]; simpl; [done|].
      case_decide; [|done]. by destruct k. }
    match goal with
    | |- context [key_line k ?x] => destruct (key_line k x) eqn:Hx; [|done]
    end.
    exfalso. apply Hne.
    eapply key_line_unique; eauto using allowed_no_eq.
    apply key_line_own.
Qed.

(** Rewriting [k] with a well-formed value turns each of its lines
    into [k="value"]. *)
Lemma klines_sub_eq k sv c :
  allowed k = true → well_formed sv = true →
  List.filter (key_line k) (lines (pattern_sub k sv c))
  = map (fun _ => new_line k sv) (List.filter (key_line k) (lines c)).
Proof.
  intros Hk Hsv.
  rewrite pattern_sub_lines, filter_concat_map.
  assert (lines (new_line k sv) = [new_line k sv]) as Hone.
  { apply lines_single. unfold new_line.
    rewrite !has_char_app, (allowed_no_nl _ Hk). simpl.
    rewrite orb_false_r. apply all_in_class_no_nl.
    by apply andb_true_iff in Hsv as [_ ?]. }
  induction (lines c) as [|l ls IH]; simpl; [done|].
  rewrite IH. unfold sub_line.
  destruct (key_line k l) eqn:Hl; simpl.
  - rewrite Hone. simpl. by rewrite key_line_new_line.
  - by rewrite Hl.
Qed.

Lemma search_sub_ne k k1 sv c :
  allowed k = true → allowed k1 = true → k ≠ k1 →
  safe_value_match sv = true →
  pattern_search k (pattern_sub k1 sv c) = pattern_search k c.
Proof.
  intros. unfold pattern_search. rewrite !existsb_filter.
  by rewrite klines_sub_ne.
Qed.

(** Carriage returns: neither a key nor a value that passes the
    sanitizer holds one, so rewriting brings none in. *)
Lemma has_char_unlines a ls :
  a ≠ NL → has_char a (unlines ls) = existsb (has_char a) ls.
Proof.
  intros Ha. induction ls as [|l ls IH]; [done|].
  destruct ls as [|l' ls']; [simpl; by rewrite orb_false_r|].
  change (unlines (l :: l' :: ls')) with (l +:+ nl +:+ unlines (l' :: ls')).
  rewrite !has_char_app, IH. simpl. rewrite decide_False by done. done.
Qed.

Lemma has_char_lines a s :
  a ≠ NL → existsb (has_char a) (lines s) = has_char a s.
Proof. intros Ha. by rewrite <- has_char_unlines, unlines_lines. Qed.

Lemma safe_value_no_cr sv : safe_value_match sv = true → has_char CR sv = false.
Proof.
  intros Hsv. destruct (has_char CR sv) eqn:Hcr; [|done].
  by destruct (match_only_class _ _ Hsv Hcr).
Qed.

Lemma pattern_sub_no_cr k sv c :
  allowed k = true → safe_value_match sv = true →
  has_char CR c = false → has_char CR (pattern_sub k sv c) = false.
Proof.
  intros Hk Hsv Hc. unfold pattern_sub.
  rewrite has_char_unlines by done.
  rewrite <- (has_char_lines CR c) in Hc by done.
  induction (lines c) as [|l ls IH]; [done|]. simpl in *.
  apply orb_false_elim in Hc as [Hl Hls]. rewrite (IH Hls), orb_false_r.
  destruct (key_line k l); [|done].
  unfold new_line. rewrite !has_char_app, (safe_value_no_cr _ Hsv).
  assert (has_char CR k = false) as ->; [|done].
  by apply (allowed_elim (fun k => has_char CR k = false) k).
Qed.

End SettingsText.

(** ** The loop of [update_settings] *)

Section SettingsLoop.

Local Abbreviation klines k c := (List.filter (key_line k) (lines c)).

Lemma loop_skips_disallowed items c upd :
  settings_loop (List.filter (fun kv => allowed (fst kv)) items) c upd
  = settings_loop items c upd.
Proof.
  revert c upd. induction items as [|[k v] items IH]; intros c upd; [done|].
  simpl. destruct (allowed k) eqn:Hk; simpl; [|by apply IH].
  rewrite Hk. simpl.
  destruct (py_str v) as [t|ex]; [|done].
  destruct (negb (safe_value_match t)); [by apply IH|].
  destruct (pattern_search k c); by apply IH.
Qed.

(** Whether the loop returns depends on the payload alone: it does when
    [str] returns for the value of every allow-listed key. *)
Lemma loop_returns items c upd :
  values_have_text items = true → ∃ r, settings_loop items c upd = Ok r.
Proof.
  revert c upd. induction items as [|[k v] items IH]; intros c upd; simpl.
  { intros _. by eexists. }
  intros [Hv Hrest]%andb_true_iff. unfold has_text in Hv.
  destruct (negb (allowed k)); [by apply IH|]. simpl in Hv.
  destruct (py_str v) as [t|ex]; [|done].
  destruct (negb (safe_value_match t)); [by apply IH|].
  destruct (pattern_search k c); by apply IH.
Qed.

Lemma loop_returned items c upd r :
  settings_loop items c upd = Ok r → values_have_text items = true.
Proof.
  revert c upd. induction items as [|[k v] items IH]; intros c upd; simpl; [done|].
  unfold has_text.
  destruct (negb (allowed k)); simpl; [by apply IH|].
  destruct (py_str v) as [t|ex]; [|done]. simpl.
  destruct (negb (safe_value_match t)); [by apply IH|].
  destruct (pattern_search k c); by apply IH.
Qed.

Lemma loop_raises_alike items c upd ex c2 upd2 :
  settings_loop items c upd = Raise ex → settings_loop items c2 upd2 = Raise ex.
Proof.
  revert c upd c2 upd2.
  induction items as [|[k v] items IH]; intros c upd c2 upd2; simpl; [done|].
  destruct (negb (allowed k)); [by apply IH|].
  destruct (py_str v) as [t|ex']; [|done].
  destruct (negb (safe_value_match t)); [by apply IH|].
  destruct (pattern_search k c), (pattern_search k c2); by apply IH.
Qed.

Lemma loop_mono items c upd c' upd' k :
  settings_loop items c upd = Ok (c', upd') → k ∈ upd → k ∈ upd'.
Proof.
  revert c upd. induction items as [|[k1 v1] items IH]; intros c upd; simpl.
  { by intros [= <- <-]. }
  destruct (negb (allowed k1)); [by apply IH|].
  destruct (py_str v1) as [t|ex]; [|done].
  destruct (negb (safe_value_match t)); [by apply IH|].
  destruct (pattern_search k1 c); [|by apply IH].
  intros Hrun Hin. eapply IH; [exact Hrun|]. apply elem_of_app. by left.
Qed.

(** A key that is not allow-listed, or that has no line in the text,
    is never recorded as updated. *)
Lemma loop_not_updated items c upd c' upd' k :
  allowed k = false ∨ pattern_search k c = false →
  settings_loop items c upd = Ok (c', upd') → k ∈ upd' → k ∈ upd.
Proof.
  revert c upd. induction items as [|[k1 v1] items IH]; intros c upd Hk; simpl.
  { by intros [= <- <-]. }
  destruct (allowed k1) eqn:Hk1; simpl; [|by apply IH].
  destruct (py_str v1) as [t|ex]; [|done].
  destruct (safe_value_match t) eqn:Hsv; simpl; [|by apply IH].
  destruct (pattern_search k1 c) eqn:Hs; [|by apply IH].
  intros Hrun Hin. eapply IH in Hin; [| |exact Hrun].
  - apply elem_of_app in Hin as [Hin|Hin]; [done|].
    apply list_elem_of_singleton in Hin as ->.
    destruct Hk; congruence.
  - destruct Hk as [Hk|Hk]; [by left|].
    destruct (allowed k) eqn:Hka; [right|by left].
    rewrite search_sub_ne; [done..| |done]. congruence.
Qed.

Lemma loop_all_absent items c upd r :
  (∀ k, k ∈ map fst items → pattern_search k c = false) →
  settings_loop items c upd = Ok r → r = (c, upd).
Proof.
  revert upd. induction items as [|[k v] items IH]; intros upd Habs; simpl.
  { by intros [= <-]. }
  rewrite (Habs k) by (simpl; apply elem_of_cons; by left).
  assert (settings_loop items c upd = Ok r → r = (c, upd)) as Hrest.
  { apply IH. intros k' Hk'. apply Habs. simpl. apply elem_of_cons. by right. }
  destruct (negb (allowed k)); [done|].
  destruct (py_str v); [|done]. by destruct (negb _).
Qed.

(** Lines that no allow-listed key owns pass through the loop. *)
Lemma loop_foreign_lines items c upd c' upd' :
  settings_loop items c upd = Ok (c', upd') →
  ∃ f : string → list string,
    lines c' = concat (map f (lines c)) ∧
    ∀ l, foreign_line l = true → f l = [l].
Proof.
  revert c upd. induction items as [|[k v] items IH]; intros c upd; simpl.
  { intros [= <- <-]. exists (fun l => [l]).
    split; [by rewrite concat_map_singleton|done]. }
  destruct (allowed k) eqn:Hk; simpl; [|by apply IH].
  destruct (py_str v) as [t|ex]; [|done].
  destruct (negb (safe_value_match t)); [by apply IH|].
  destruct (pattern_search k c); [|by apply IH].
  intros Hrun. destruct (IH _ _ Hrun) as (g & Hg & Hgf).
  exists (fun l => concat (map g (sub_line k t l))). split.
  - by rewrite Hg, pattern_sub_lines, concat_map_compose.
  - intros l Hl. unfold sub_line.
    assert (key_line k l = false) as ->.
    { unfold foreign_line in Hl. rewrite forallb_forall in Hl.
      apply negb_true_iff, Hl, list_elem_of_In.
      unfold allowed in Hk. by apply bool_decide_eq_true in Hk. }
    simpl. rewrite app_nil_r. by apply Hgf.
Qed.

Lemma loop_other_key items c upd c' upd' k :
  allowed k = true → k ∉ map fst items →
  settings_loop items c upd = Ok (c', upd') →
  klines k c' = klines k c.
Proof.
  intros Hk. revert c upd.
  induction items as [|[k1 v1] items IH]; intros c upd Hnot; simpl.
  { by intros [= <- <-]. }
  simpl in Hnot. apply not_elem_of_cons in Hnot as [Hne Hnot].
  destruct (allowed k1) eqn:Hk1; simpl; [|by apply IH].
  destruct (py_str v1) as [t|ex]; [|done].
  destruct (safe_value_match t) eqn:Hsv; simpl; [|by apply IH].
  destruct (pattern_search k1 c); [|by apply IH].
  intros Hrun. rewrite (IH _ _ Hnot Hrun). by apply klines_sub_ne.
Qed.

(** An allow-listed key with a well-formed value and a line in the
    text is recorded, and each of its lines ends up as [key="value"]. *)
Lemma loop_rewrites items c upd c' upd' k v t :
  NoDup (map fst items) → (k, v) ∈ items →
  allowed k = true → py_str v = Ok t → well_formed t = true →
  pattern_search k c = true →
  settings_loop items c upd = Ok (c', upd') →
  k ∈ upd' ∧ klines k c' = map (fun _ => new_line k t) (klines k c).
Proof.
  intros Hnd Hin Hk Ht Hwf. revert c upd.
  induction items as [|[k1 v1] items IH]; intros c upd Hs.
  { by apply elem_of_nil in Hin. }
  simpl in Hnd. apply NoDup_cons in Hnd as [Hfresh Hnd].
  apply elem_of_cons in Hin as [Heq|Hin].
  - injection Heq as <- <-. simpl.
    rewrite Hk, Ht, (well_formed_match _ Hwf), Hs. simpl. intros Hrun. split.
    + eapply loop_mono; [exact Hrun|]. apply elem_of_app. right.
      by apply list_elem_of_singleton.
    + rewrite (loop_other_key _ _ _ _ _ _ Hk Hfresh Hrun). by apply klines_sub_eq.
  - assert (k ≠ k1) as Hne.
    { intros ->. apply Hfresh. apply list_elem_of_fmap_2' with (k1, v); done. }
    simpl. destruct (allowed k1) eqn:Hk1; simpl; [|by apply IH].
    destruct (py_str v1) as [t1|ex]; [|done].
    destruct (safe_value_match t1) eqn:Hsv; simpl; [|by apply IH].
    destruct (pattern_search k1 c); [|by apply IH].
    rewrite <- (klines_sub_ne k k1 t1 c) by done.
    apply IH; [done..|]. by rewrite search_sub_ne.
Qed.

Lemma loop_no_cr items c upd c' upd' :
  has_char CR c = false →
  settings_loop items c upd = Ok (c', upd') → has_char CR c' = false.
Proof.
  revert c upd. induction items as [|[k v] items IH]; intros c upd Hc; simpl.
  { by intros [= <- <-]. }
  destruct (allowed k) eqn:Hk; simpl; [|by apply IH].
  destruct (py_str v) as [t|ex]; [|done].
  destruct (safe_value_match t) eqn:Hsv; simpl; [|by apply IH].
  destruct (pattern_search k c); [|by apply IH].
  apply IH. by apply pattern_sub_no_cr.
Qed.

End SettingsLoop.

(** ** [update_settings] and the handlers *)

Section Settings.
Context {codec : JsonCodec}.
Variable SCRIPT_DIR : path.

Local Abbreviation CONF := (CONFIG_FILE SCRIPT_DIR).
Local Abbreviation CF := (CONTROL_FILE SCRIPT_DIR).

Lemma config_file_split : CONF = (SCRIPT_DIR ++ ["config"]) ++ ["ralph.conf"].
Proof. unfold CONFIG_FILE. by rewrite <- app_assoc. Qed.

Lemma map_JStr_inj (l1 l2 : list string) : map JStr l1 = map JStr l2 → l1 = l2.
Proof.
  revert l2. induction l1 as [|a l1 IH]; intros [|b l2]; simpl; try done.
  intros [= -> H]. f_equal. by apply IH.
Qed.

Lemma read_text_inv e p s r s1 :
  read_text e p s = (r, s1) →
  s1 = s ∧ ∀ c, r = Ok c → ∃ c0, files s !! p = Some c0 ∧ c = universal_newlines c0.
Proof.
  unfold read_text, os_error, raise, bind, get_fs, ret.
  destruct (read_fault e); [by intros [= <- <-]|].
  destruct (files s !! p) eqn:Hf.
  - intros [= <- <-]. split; [done|]. intros ? [= <-]. eauto.
  - destruct (bool_decide _); by intros [= <- <-].
Qed.

Lemma file_exists s (p : path) c : files s !! p = Some c → path_exists s p = true.
Proof.
  intros H. unfold path_exists. rewrite H.
  rewrite bool_decide_eq_true_2; [done|eauto].
Qed.

Lemma update_settings_unfold e s items content :
  files s !! CONF = Some content →
  update_settings SCRIPT_DIR e (JObj items) s =
  match read_fault e with
  | Some msg => (Raise (Exn OSError msg), s)
  | None =>
      match settings_loop items (universal_newlines content) [] with
      | Ok looped => after_loop SCRIPT_DIR e s looped
      | Raise ex => (Raise ex, s)
      end
  end.
Proof.
  intros Hfile. unfold update_settings.
  run_ok (eq_refl : get_fs s = (Ok s, s)).
  rewrite (file_exists _ _ _ Hfile). cbn [negb].
  destruct (read_fault e) as [msg|] eqn:Hrf.
  { apply bind_raise. unfold read_text. by rewrite Hrf. }
  run_ok (read_text_ok _ _ _ _ Hrf Hfile).
  destruct (settings_loop items (universal_newlines content) []) as [[c' upd]|ex];
    [|done].
  run_ok_by ltac:(reflexivity).
  unfold after_loop. simpl.
  case_bool_decide as Hupd.
  - subst upd. by run_ok (eq_refl : ret tt s = (Ok tt, s)).
  - unfold bind. by destruct (atomic_write e CONF c' s) as [[[]|ex] s'].
Qed.

Lemma after_loop_files e s looped r s' :
  after_loop SCRIPT_DIR e s looped = (r, s') →
  (files s' = files s ∧ (r = Ok (JObj [("updated", JArr [])]) ∨ ∃ ex, r = Raise ex)
   ∧ (snd looped = [] → s' = s)) ∨
  (snd looped ≠ [] ∧ r = Ok (JObj [("updated", JArr (map JStr (snd looped)))]) ∧
   files s' = <[CONF := fst looped]> (files s)).
Proof.
  unfold after_loop. case_bool_decide as Hupd.
  - intros [= <- <-]. left. eauto.
  - destruct (atomic_write e CONF (fst looped) s) as [r0 s0] eqn:Haw.
    destruct (atomic_write_files _ _ _ _ _ _ Haw) as [(ex & -> & Hf)|[-> Hf]].
    + intros [= <- <-]. left. split_and!; [done|eauto|done].
    + intros [= <- <-]. by right.
Qed.

(** What [after_loop] returns when it returns: the [updated] list of the
    loop. *)
Lemma after_loop_result e s looped upd s' :
  after_loop SCRIPT_DIR e s looped = (Ok (JObj [("updated", JArr (map JStr upd))]), s') →
  upd = snd looped.
Proof.
  unfold after_loop. case_bool_decide as Hupd.
  - intros [= Hup _]. rewrite Hupd. by destruct upd.
  - destruct (atomic_write _ _ _ _) as [[[]|?] ?]; [|done].
    by intros [= Hup%map_JStr_inj _].
Qed.

(** C6. When the settings file does not exist, [update_settings] does
    not raise but returns [{"error": "ralph.conf not found"}], and a
    POST to [/api/settings] with a non-empty body is answered with
    status 200 and that field merged into [{"ok": true}]; nothing on
    disk changes. *)
Theorem missing_settings_file_is_200
    (e : env) (s : fs) (req : request) (n : nat) (body : json) :
  path_exists s CONF = false →
  req_path req = "/api/settings" →
  req_length req = Length (S n) →
  json_loads_bytes (take_str (S n) (rfile req)) = Ok body →
  py_truthy body = true →
  update_settings SCRIPT_DIR e body s
    = (Ok (JObj [("error", JStr "ralph.conf not found")]), s) ∧
  do_POST SCRIPT_DIR e req s
    = (JsonResponse 200
         (JObj [("ok", JBool true); ("error", JStr "ralph.conf not found")]), s).
Proof.
  intros Hno Hpath Hlen Hbody Htruthy.
  unfold do_POST. rewrite Hpath.
  rewrite bool_decide_eq_false_2 by done. rewrite bool_decide_eq_true_2 by done.
  assert (update_settings SCRIPT_DIR e body s
          = (Ok (JObj [("error", JStr "ralph.conf not found")]), s)) as Hupd.
  { unfold update_settings.
    run_ok (eq_refl : get_fs s = (Ok s, s)). by rewrite Hno. }
  split; [done|].
  unfold handle_settings, respond.
  assert (read_body req s = (Ok body, s)) as Hread.
  { unfold read_body. by rewrite Hlen, Hbody. }
  rewrite (bind_ok _ _ _ _ _ Hread). cbv beta.
  rewrite Htruthy. cbn [negb].
  by rewrite (bind_ok _ _ _ _ _ Hupd).
Qed.

(** C8. When no proposed key results in an update, the call writes
    nothing: it returns an empty [updated] sequence and the file system
    is the one it started from.  A key whose line is absent from the
    file, as the call reads it, is never in the returned sequence; and
    when this holds for every proposed key nothing changes, and the
    call returns the empty sequence as soon as it returns, which it
    does when every value the loop prints has a text. *)
Theorem no_update_no_write
    (e : env) (s : fs) (items : list (string * json)) (content : string)
    (r : result json) (s' : fs) :
  files s !! CONF = Some content →
  update_settings SCRIPT_DIR e (JObj items) s = (r, s') →
  (r = Ok (JObj [("updated", JArr [])]) → s' = s) ∧
  (∀ key upd, r = Ok (JObj [("updated", JArr (map JStr upd))]) →
              pattern_search key (universal_newlines content) = false → key ∉ upd) ∧
  (read_fault e = None →
   (∀ key, key ∈ map fst items →
           pattern_search key (universal_newlines content) = false) →
   s' = s ∧
   (∀ d, r = Ok d → d = JObj [("updated", JArr [])]) ∧
   (values_have_text items = true → r = Ok (JObj [("updated", JArr [])]))).
Proof.
  intros Hfile. rewrite (update_settings_unfold _ _ _ _ Hfile).
  destruct (read_fault e) as [msg|].
  { intros [= <- <-]. split_and!; done. }
  destruct (settings_loop items (universal_newlines content) [])
    as [[c' upd']|ex] eqn:Hloop.
  2:{ intros [= <- <-]. split_and!; try done.
      intros _ Habs. split_and!; try done.
      intros Htext. destruct (loop_returns items (universal_newlines content) [] Htext)
        as [r0 Hr0]. congruence. }
  intros Hrun. split_and!.
  - intros ->. apply after_loop_result with (upd := []) in Hrun as Hnil.
    destruct (after_loop_files _ _ _ _ _ Hrun) as [(_ & _ & Hs)|(Hne & _)]; [|done].
    by apply Hs.
  - intros key upd -> Hkey Hin.
    apply after_loop_result in Hrun. simpl in Hrun. subst upd.
    eapply loop_not_updated in Hin; [by apply elem_of_nil in Hin|by right|done].
  - intros _ Habs. apply loop_all_absent in Hloop as [= -> ->]; [|done].
    revert Hrun. unfold after_loop. simpl. intros [= <- <-].
    split_and!; [done| |done]. by intros d [= <-].
Qed.

(** C5. A proposed key outside the allow-list has no effect whatever
    its value: the call returns the same result and leaves the same
    file system as without that key, and the key is not reported as
    updated.  Every line of the settings file that no allow-listed key
    owns is still there afterwards, unchanged and in its place, as a
    line of text: the lines a reader in text mode finds after the call
    are those it found before, each replaced by what the rewriting made
    of it, and such a line is replaced by itself.  On a file without
    carriage returns this is so byte for byte. *)
Theorem disallowed_keys_never_written
    (e : env) (s : fs) (settings : json) (content : string)
    (r : result json) (s' : fs) :
  files s !! CONF = Some content →
  update_settings SCRIPT_DIR e settings s = (r, s') →
  (∀ items, settings = JObj items →
     update_settings SCRIPT_DIR e
       (JObj (List.filter (fun kv => allowed (fst kv)) items)) s = (r, s')) ∧
  (∀ items key upd, settings = JObj items → allowed key = false →
     r = Ok (JObj [("updated", JArr (map JStr upd))]) → key ∉ upd) ∧
  ∃ (content' : string) (f : string → list string),
    files s' !! CONF = Some content' ∧
    lines (universal_newlines content')
      = concat (map f (lines (universal_newlines content))) ∧
    (∀ l, foreign_line l = true → f l = [l]) ∧
    (has_char CR content = false →
     lines content' = concat (map f (lines content))).
Proof.
  intros Hfile Hrun.
  assert (∀ c, lines c = concat (map (fun l => [l]) (lines c))) as Hsame
    by (intros; by rewrite concat_map_singleton).
  assert ((∃ items, settings = JObj items) ∨ ¬ (∃ items, settings = JObj items))
    as [[items ->]|Hnot]
    by (destruct settings; eauto; right; by intros [? ?]).
  2:{ split_and!;
        [intros items ->; destruct Hnot; eauto
        |intros items ? ? ->; destruct Hnot; eauto|].
      exists content, (fun l => [l]).
      revert Hrun. unfold update_settings.
      rewrite (bind_ok _ _ _ _ _ (eq_refl : get_fs s = (Ok s, s))).
      rewrite (file_exists _ _ _ Hfile). cbn [negb].
      unfold bind. destruct (read_text e CONF s) as [r0 s0] eqn:Hread.
      apply read_text_inv in Hread as [-> _].
      destruct r0; destruct settings; try (destruct Hnot; by eauto);
        intros [= <- <-]; by split_and!. }
  rewrite (update_settings_unfold _ _ _ _ Hfile) in Hrun.
  split_and!.
  - intros items' [= <-].
    rewrite (update_settings_unfold _ _ _ _ Hfile).
    by rewrite loop_skips_disallowed.
  - intros items' key upd [= <-] Hkey -> Hin.
    destruct (read_fault e); [done|].
    destruct (settings_loop items (universal_newlines content) [])
      as [[c' upd']|ex] eqn:Hloop; [|done].
    apply after_loop_result in Hrun. simpl in Hrun. subst upd.
    eapply loop_not_updated in Hin; [by apply elem_of_nil in Hin|by left|done].
  - destruct (read_fault e).
    { injection Hrun as <- <-. exists content, (fun l => [l]). by split_and!. }
    destruct (settings_loop items (universal_newlines content) [])
      as [[c' upd']|ex] eqn:Hloop.
    2:{ injection Hrun as <- <-. exists content, (fun l => [l]). by split_and!. }
    destruct (after_loop_files _ _ _ _ _ Hrun) as [(Hf & _ & _)|(_ & _ & Hf)].
    + exists content, (fun l => [l]). rewrite Hf. by split_and!.
    + destruct (loop_foreign_lines _ _ _ _ _ Hloop) as (f & Hlines & Hforeign).
      assert (universal_newlines c' = c') as Hplain.
      { apply universal_newlines_plain. eapply loop_no_cr; [|exact Hloop].
        apply universal_newlines_no_cr. }
      exists c', f. simpl in Hf.
      rewrite Hf, lookup_insert_eq, Hplain. split_and!; [done..|].
      intros Hcr. by rewrite (universal_newlines_plain _ Hcr) in Hlines.
Qed.

(** C7. An allow-listed key with a well-formed value whose line exists
    in the settings file is rewritten: the call succeeds, the key is
    in the returned [updated] sequence, and every line of the file
    that began with [KEY=] now reads [KEY="value"], the prefix kept and
    the value in double quotes; there is at least one such line.  The
    lines are those of the text the call reads; the payload is a
    dictionary, and [str] returns for the values the loop prints. *)
Theorem allowed_key_rewritten
    (e : env) (s : fs) (items : list (string * json)) (content : string)
    (key : string) (value : json) (safe_value : string) :
  files s !! CONF = Some content →
  writable e s CONF = true →
  NoDup (map fst items) →
  values_have_text items = true →
  (key, value) ∈ items →
  allowed key = true →
  py_str value = Ok safe_value →
  well_formed safe_value = true →
  pattern_search key (universal_newlines content) = true →
  ∃ (upd : list string) (content' : string) (s' : fs),
    update_settings SCRIPT_DIR e (JObj items) s
      = (Ok (JObj [("updated", JArr (map JStr upd))]), s') ∧
    key ∈ upd ∧
    files s' !! CONF = Some content' ∧
    List.filter (key_line key) (lines content')
      = map (fun _ => key +:+ "=" +:+ dq +:+ safe_value +:+ dq)
            (List.filter (key_line key) (lines (universal_newlines content))) ∧
    List.filter (key_line key) (lines (universal_newlines content)) ≠ [].
Proof.
  intros Hfile Hw Hnd Htext Hin Hk Hstr Hwf Hs.
  destruct (loop_returns items (universal_newlines content) [] Htext)
    as [[c' upd] Hloop].
  destruct (loop_rewrites _ _ _ _ _ _ _ _ Hnd Hin Hk Hstr Hwf Hs Hloop)
    as [Hupd Hlines].
  rewrite (update_settings_unfold _ _ _ _ Hfile).
  rewrite (writable_read_fault _ _ _ Hw), Hloop. unfold after_loop. simpl.
  rewrite bool_decide_eq_false_2.
  2:{ intros Hnil. rewrite Hnil in Hupd. by apply elem_of_nil in Hupd. }
  rewrite config_file_split in Hw |- *.
  rewrite (atomic_write_succeeds _ _ _ _ _ Hw).
  eexists _, _, _. split_and!; [done|exact Hupd|apply lookup_insert_eq|exact Hlines|].
  unfold pattern_search in Hs. rewrite existsb_filter in Hs.
  by apply negb_true_iff, bool_decide_eq_false in Hs.
Qed.

(** A corrupt queue file reaches the client as a 400. *)
Lemma corrupt_queue_response e s req body text ex :
  read_body req s = (Ok body, s) →
  py_contains "command" body = Ok true →
  files s !! CF = Some text →
  json_loads (universal_newlines text) = Raise ex →
  exn_cls ex = JSONDecodeError →
  mkdir_fault e = None →
  read_fault e = None →
  forallb (fun a => negb (bool_decide (is_Some (files s !! a))))
          (ancestors_or_self (SCRIPT_DIR ++ ["control"])) = true →
  ∃ s', handle_command SCRIPT_DIR e req s
        = (JsonResponse 400 (JObj [("error", JStr "Invalid JSON")]), s') ∧
        files s' = files s.
Proof.
  intros Hbody Hcmd Hfile Hload Hcls Hmk Hrf Hanc.
  destruct (enqueue_corrupt SCRIPT_DIR e s text ex body Hfile Hload Hmk Hrf Hanc)
    as (s' & Henq & Hfiles).
  exists s'. split; [|done].
  unfold handle_command, respond.
  rewrite (bind_ok _ _ _ _ _ Hbody). cbv beta.
  rewrite (bind_ok _ _ _ _ _ (lift_ok _ _ _ Hcmd)). cbn [negb]. cbv beta.
  by rewrite (bind_raise _ _ _ _ _ Henq), Hcls.
Qed.

(** A queue file that cannot be read reaches the client as a 500, with
    the error's text: the answer for an internal error. *)
Lemma unreadable_queue_response e s req body text msg :
  read_body req s = (Ok body, s) →
  py_contains "command" body = Ok true →
  files s !! CF = Some text →
  mkdir_fault e = None →
  read_fault e = Some msg →
  forallb (fun a => negb (bool_decide (is_Some (files s !! a))))
          (ancestors_or_self (SCRIPT_DIR ++ ["control"])) = true →
  ∃ s', handle_command SCRIPT_DIR e req s
        = (JsonResponse 500 (JObj [("error", JStr msg)]), s') ∧
        files s' = files s.
Proof.
  intros Hbody Hcmd Hfile Hmk Hrf Hanc.
  set (s1 := Fs (files s)
                (dirs s ∪ list_to_set (ancestors_or_self (SCRIPT_DIR ++ ["control"])))).
  exists s1. split; [|done].
  assert (enqueue_command SCRIPT_DIR e body s = (Raise (Exn OSError msg), s1)) as Henq.
  { unfold enqueue_command. rewrite control_parent.
    run_ok (mkdir_p_succeeds _ _ _ Hmk Hanc).
    run_ok (eq_refl : get_fs s1 = (Ok s1, s1)).
    apply bind_raise. rewrite (file_exists s1 CF text Hfile).
    unfold json_load. apply bind_raise. unfold read_text. by rewrite Hrf. }
  unfold handle_command, respond.
  rewrite (bind_ok _ _ _ _ _ Hbody). cbv beta.
  rewrite (bind_ok _ _ _ _ _ (lift_ok _ _ _ Hcmd)). cbn [negb]. cbv beta.
  by rewrite (bind_raise _ _ _ _ _ Henq).
Qed.

End Settings.

(** ** The sanitizer *)

Section Sanitizer.

(** A value with a character outside the class, other than a newline,
    is skipped, and the loop goes on with the keys that follow. *)
Lemma outside_class_skipped k v t c rest content updated :
  py_str v = Ok t →
  has_char c t = true → in_class c = false → c ≠ NL →
  settings_loop ((k, v) :: rest) content updated
  = settings_loop rest content updated.
Proof.
  intros Ht Hc Hout Hnl. simpl. rewrite Ht.
  destruct (negb (allowed k)); [done|].
  destruct (safe_value_match t) eqn:Hm; [|done].
  destruct (match_only_class _ _ Hm Hc); congruence.
Qed.

End Sanitizer.

(** ** Runs on the sample deployment *)

Section Runs.
Import Sample.

Local Abbreviation CONF := (CONFIG_FILE script_dir).
Local Abbreviation CF := (CONTROL_FILE script_dir).

(** C4, on the code: a value that ends in a newline holds a character
    outside the class, yet [RALPH_MODE="debug\n"] passes the sanitizer;
    the key is reported as updated and the newline is written into the
    settings file, where the value now spans two lines. *)
Theorem trailing_newline_value_is_applied :
  has_char NL ("debug" +:+ nl) = true ∧
  in_class NL = false ∧
  fst (update_settings script_dir quiet mode_newline conf_disk)
    = Ok (JObj [("updated", JArr [JStr "RALPH_MODE"])]) ∧
  files (snd (update_settings script_dir quiet mode_newline conf_disk)) !! CONF
    = Some (unlines [ "# operator settings";
                      "RALPH_MODE=" +:+ dq +:+ "debug";
                      dq;
                      "RALPH_MIN_DELAY_SECONDS=5";
                      "PROJECT_NAME=demo";
                      "" ]).
Proof. split_and!; vm_compute; reflexivity. Qed.

(** C3, on the code: with a queue file that does not parse, a valid
    command is answered with status 400 and ["Invalid JSON"], the
    answer meant for a malformed request body, not with status 500;
    the queue file is left as it was. *)
Theorem corrupt_queue_answered_400 :
  PyJson.loads "{not json" = None ∧
  PyJson.loads (rfile post_pause) = Some pause ∧
  fst (@do_POST PyJson.codec script_dir quiet post_pause corrupt_queue_disk)
    = JsonResponse 400 (JObj [("error", JStr "Invalid JSON")]) ∧
  files (snd (@do_POST PyJson.codec script_dir quiet post_pause corrupt_queue_disk))
    = files corrupt_queue_disk.
Proof. split_and!; vm_compute; reflexivity. Qed.

Lemma atomic_write_failure_before_replace_witness :
  ∃ s', atomic_write disk_full CONF "RALPH_MODE=x" conf_disk
        = (Raise (Exn OSError "No space left on device"), s') ∧
        files s' !! CONF = files conf_disk !! CONF ∧
        files s' = files conf_disk ∧
        (∀ tmp, created_tmp disk_full CONF conf_disk = Some tmp →
                files s' !! tmp = None).
Proof.
  apply atomic_write_failure_before_replace.
  right; right.
  exists (snd (mkdir_p disk_full (parent CONF) conf_disk)).
  exists (parent CONF ++ [tmp_name "k3x9q2ab"]).
  exists (snd (mkstemp disk_full (parent CONF)
                 (snd (mkdir_p disk_full (parent CONF) conf_disk)))).
  exists (snd (write_text disk_full (parent CONF ++ [tmp_name "k3x9q2ab"])
                 "RALPH_MODE=x"
                 (snd (mkstemp disk_full (parent CONF)
                         (snd (mkdir_p disk_full (parent CONF) conf_disk)))))).
  split_and!; vm_compute; reflexivity.
Defined.

Lemma reader_sees_old_or_new_witness :
  ∃ st, atomic_write_trace quiet CONF "RALPH_MODE=x" conf_disk !! 5 = Some st ∧
        (files st !! CONF = files conf_disk !! CONF ∨
         files st !! CONF = Some "RALPH_MODE=x").
Proof.
  eexists. split; [vm_compute; reflexivity|].
  apply (reader_sees_old_or_new script_dir quiet).
  - apply elem_of_cons. right. apply elem_of_cons. left. reflexivity.
  - apply list_elem_of_lookup. exists 5. vm_compute. reflexivity.
Defined.



Lemma missing_settings_file_is_200_witness :
  update_settings script_dir quiet (JObj mode_debug) empty_disk
    = (Ok (JObj [("error", JStr "ralph.conf not found")]), empty_disk) ∧
  @do_POST PyJson.codec script_dir quiet post_mode_debug empty_disk
    = (JsonResponse 200
         (JObj [("ok", JBool true); ("error", JStr "ralph.conf not found")]),
       empty_disk).
Proof.
  apply (@missing_settings_file_is_200 PyJson.codec script_dir quiet empty_disk
           post_mode_debug 42 (JObj mode_debug));
    vm_compute; reflexivity.
Defined.

Lemma no_update_no_write_witness :
  let outcome := update_settings script_dir quiet
               (JObj [("RALPH_DEFAULT_MAX_TURNS", JInt 7)]) cr_disk in
  (fst outcome = Ok (JObj [("updated", JArr [])]) → snd outcome = cr_disk) ∧
  (∀ key upd, fst outcome = Ok (JObj [("updated", JArr (map JStr upd))]) →
              pattern_search key (universal_newlines cr_text) = false → key ∉ upd) ∧
  (read_fault quiet = None →
   (∀ key, key ∈ map fst [("RALPH_DEFAULT_MAX_TURNS", JInt 7)] →
           pattern_search key (universal_newlines cr_text) = false) →
   snd outcome = cr_disk ∧
   (∀ d, fst outcome = Ok d → d = JObj [("updated", JArr [])]) ∧
   (values_have_text [("RALPH_DEFAULT_MAX_TURNS", JInt 7)] = true →
    fst outcome = Ok (JObj [("updated", JArr [])]))).
Proof.
  apply (no_update_no_write script_dir quiet cr_disk
           [("RALPH_DEFAULT_MAX_TURNS", JInt 7)] cr_text).
  - vm_compute. reflexivity.
  - apply surjective_pairing.
Defined.

(** C5, the claim as it is written, on a settings file whose lines end
    with a carriage return and a newline.  The line [PROJECT_NAME=demo]
    with its carriage return belongs to no allow-listed key; the request
    rewrites [RALPH_MODE], the whole text goes back to disk as text mode
    gave it, and that line is there without its carriage return: the
    lines of the new content are not those of the old one with the
    foreign lines kept as they are. *)
Lemma foreign_line_loses_carriage_return :
  "PROJECT_NAME=demo" +:+ cr ∈ lines crlf_text ∧
  foreign_line ("PROJECT_NAME=demo" +:+ cr) = true ∧
  fst (update_settings script_dir quiet (JObj mode_debug) crlf_disk)
    = Ok (JObj [("updated", JArr [JStr "RALPH_MODE"])]) ∧
  files (snd (update_settings script_dir quiet (JObj mode_debug) crlf_disk)) !! CONF
    = Some ("RALPH_MODE=" +:+ quoted "debug" +:+ nl +:+ "PROJECT_NAME=demo" +:+ nl) ∧
  ¬ ∃ (content' : string) (f : string → list string),
      files (snd (update_settings script_dir quiet (JObj mode_debug) crlf_disk)) !! CONF
        = Some content' ∧
      lines content' = concat (map f (lines crlf_text)) ∧
      ∀ l, foreign_line l = true → f l = [l].
Proof.
  split_and!.
  - apply elem_of_cons. right. apply elem_of_cons. left. vm_compute. reflexivity.
  - vm_compute. reflexivity.
  - vm_compute. reflexivity.
  - vm_compute. reflexivity.
  - intros (content' & f & Hfile & Hlines & Hforeign).
    assert (files (snd (update_settings script_dir quiet (JObj mode_debug) crlf_disk))
              !! CONF
            = Some ("RALPH_MODE=" +:+ quoted "debug" +:+ nl
                    +:+ "PROJECT_NAME=demo" +:+ nl)) as Hnew
      by (vm_compute; reflexivity).
    rewrite Hnew in Hfile.
    assert (content' = "RALPH_MODE=" +:+ quoted "debug" +:+ nl
                       +:+ "PROJECT_NAME=demo" +:+ nl) as -> by congruence.
    assert (foreign_line ("PROJECT_NAME=demo" +:+ cr) = true) as Hf2
      by (vm_compute; reflexivity).
    assert (foreign_line "" = true) as Hf3 by (vm_compute; reflexivity).
    assert ("PROJECT_NAME=demo" ≠ "PROJECT_NAME=demo" +:+ cr) as Hdiff
      by (vm_compute; discriminate).
    assert (lines crlf_text
            = ["RALPH_MODE=" +:+ quoted "auto" +:+ cr; "PROJECT_NAME=demo" +:+ cr; ""])
      as Hold by (vm_compute; reflexivity).
    assert (lines ("RALPH_MODE=" +:+ quoted "debug" +:+ nl
                   +:+ "PROJECT_NAME=demo" +:+ nl)
            = ["RALPH_MODE=" +:+ quoted "debug"; "PROJECT_NAME=demo"; ""])
      as Hnow by (vm_compute; reflexivity).
    rewrite Hold, Hnow in Hlines. clear Hold Hnow Hnew.
    remember ("PROJECT_NAME=demo" +:+ cr) as kept.
    remember ("RALPH_MODE=" +:+ quoted "auto" +:+ cr) as first.
    remember ("RALPH_MODE=" +:+ quoted "debug") as first'.
    cbn [map concat] in Hlines.
    rewrite (Hforeign kept Hf2), (Hforeign "" Hf3) in Hlines.
    destruct (f first) as [|x [|y rest]]; cbn [app] in Hlines.
    + discriminate.
    + injection Hlines as _ Hsame. by apply Hdiff.
    + injection Hlines as _ _ Hrest. by destruct rest as [|? [|? ?]].
Qed.

Lemma disallowed_keys_never_written_witness :
  let outcome := update_settings script_dir quiet (JObj mode_debug) crlf_disk in
  (∀ items, JObj mode_debug = JObj items →
     update_settings script_dir quiet
       (JObj (List.filter (fun kv => allowed (fst kv)) items)) crlf_disk
     = (fst outcome, snd outcome)) ∧
  (∀ items key upd, JObj mode_debug = JObj items → allowed key = false →
     fst outcome = Ok (JObj [("updated", JArr (map JStr upd))]) → key ∉ upd) ∧
  ∃ (content' : string) (f : string → list string),
    files (snd outcome) !! CONF = Some content' ∧
    lines (universal_newlines content')
      = concat (map f (lines (universal_newlines crlf_text))) ∧
    (∀ l, foreign_line l = true → f l = [l]) ∧
    (has_char CR crlf_text = false →
     lines content' = concat (map f (lines crlf_text))).
Proof.
  apply (disallowed_keys_never_written script_dir quiet crlf_disk
           (JObj mode_debug) crlf_text).
  - vm_compute. reflexivity.
  - apply surjective_pairing.
Defined.

Lemma allowed_key_rewritten_witness :
  ∃ (upd : list string) (content' : string) (s' : fs),
    update_settings script_dir quiet (JObj mode_debug) cr_disk
      = (Ok (JObj [("updated", JArr (map JStr upd))]), s') ∧
    "RALPH_MODE" ∈ upd ∧
    files s' !! CONF = Some content' ∧
    List.filter (key_line "RALPH_MODE") (lines content')
      = map (fun _ => "RALPH_MODE" +:+ "=" +:+ dq +:+ "debug" +:+ dq)
            (List.filter (key_line "RALPH_MODE") (lines (universal_newlines cr_text))) ∧
    List.filter (key_line "RALPH_MODE") (lines (universal_newlines cr_text)) ≠ [].
Proof.
  apply (allowed_key_rewritten script_dir quiet cr_disk mode_debug cr_text
           "RALPH_MODE" (JStr "debug") "debug").
  - vm_compute. reflexivity.
  - vm_compute. reflexivity.
  - apply (bool_decide_unpack _). vm_compute. reflexivity.
  - vm_compute. reflexivity.
  - apply elem_of_cons. left. reflexivity.
  - vm_compute. reflexivity.
  - reflexivity.
  - vm_compute. reflexivity.
  - vm_compute. reflexivity.
Defined.

End Runs.


(** * Further properties *)

(** ** [atomic_write]: outcome and visible states *)

Section AtomicWriteOutcome.

(** X1. Under the conditions of [writable] the call succeeds: the target
    holds exactly the new content, every other file is as before (so no
    temporary file is left), and the directories are those of before
    plus the target's parent chain. *)
Theorem atomic_write_writes_target
    (e : env) (s : fs) (d : path) (name data : string) :
  writable e s (d ++ [name]) = true →
  ∃ s', atomic_write e (d ++ [name]) data s = (Ok tt, s') ∧
        files s' !! (d ++ [name]) = Some data ∧
        (∀ q, q ≠ d ++ [name] → files s' !! q = files s !! q) ∧
        dirs s' = dirs s ∪ list_to_set (ancestors_or_self d).
Proof.
  intros Hw. rewrite (atomic_write_succeeds _ _ _ _ data Hw).
  eexists. split; [done|]. simpl. split_and!; [apply lookup_insert_eq| |done].
  intros q Hq. by rewrite lookup_insert_ne.
Qed.

(** X2. Whatever the environment does and whichever step fails, the
    replace itself included, a call that raises leaves every file as it
    was, and a call that returns has changed the target alone. *)
Theorem atomic_write_all_or_nothing
    (e : env) (filepath : path) (data : string) (s : fs) :
  match atomic_write e filepath data s with
  | (Raise _, s') => files s' = files s
  | (Ok _, s') => files s' = <[filepath := data]> (files s)
  end.
Proof.
  destruct (atomic_write e filepath data s) as [r s'] eqn:Hrun.
  destruct (atomic_write_files _ _ _ _ _ _ Hrun) as [(ex & -> & Hf)|[-> Hf]]; done.
Qed.

Lemma trace_init_old e (d : path) (name data : string) s0 :
  (∀ stem, name ≠ tmp_name stem) →
  ∃ init final,
    atomic_write_trace e (d ++ [name]) data s0 = init ++ [final] ∧
    Forall (fun st => files st !! (d ++ [name]) = files s0 !! (d ++ [name])) init.
Proof.
  intros Hname. unfold atomic_write_trace, parent. rewrite removelast_last.
  destruct (mkdir_p e d s0) as [[[]|ex1] s1] eqn:Hmk.
  2:{ exists [s0], s1. split; [done|]. by repeat constructor. }
  pose proof (mkdir_p_files _ _ _ _ _ Hmk) as Hf1.
  destruct (mkstemp e d s1) as [[tmp|ex2] s2] eqn:Hmt.
  2:{ exists [s0; s1], s2. split; [done|]. repeat constructor. by rewrite Hf1. }
  destruct (mkstemp_ok _ _ _ _ _ Hmt) as ((stem & ->) & Hfree & _ & ->).
  assert (d ++ [tmp_name stem] ≠ d ++ [name]) as Hne.
  { intros Heq%app_inv_head. injection Heq as Heq. by apply (Hname stem). }
  eexists (s0 :: s1 :: _ :: map _ _), _. split; [reflexivity|].
  apply Forall_cons. split; [done|].
  apply Forall_cons. split; [by rewrite Hf1|].
  apply Forall_cons. split; [simpl; by rewrite lookup_insert_ne, Hf1|].
  apply List.Forall_forall. intros st (k & <- & _)%in_map_iff. simpl.
  by rewrite !lookup_insert_ne, Hf1.
Qed.

(** X3. During an update of the queue file or of the settings file the
    target changes at most once, and only in the last step of the call:
    in every state before the last one the target holds what it held
    when the call began. *)
Theorem target_changes_in_last_step
    (SCRIPT_DIR : path) (e : env) (target : path) (data : string)
    (s0 st : fs) (i : nat) :
  target ∈ [CONTROL_FILE SCRIPT_DIR; CONFIG_FILE SCRIPT_DIR] →
  atomic_write_trace e target data s0 !! i = Some st →
  S i < length (atomic_write_trace e target data s0) →
  files st !! target = files s0 !! target.
Proof.
  intros Htarget.
  assert (∃ d name, target = d ++ [name] ∧ starts_with "t" name = false)
    as (d & name & -> & Hname).
  { apply elem_of_cons in Htarget as [->|Htarget].
    - exists (SCRIPT_DIR ++ ["control"]), "commands.json".
      unfold CONTROL_FILE. by rewrite <- app_assoc.
    - apply list_elem_of_singleton in Htarget as ->.
      exists (SCRIPT_DIR ++ ["config"]), "ralph.conf".
      unfold CONFIG_FILE. by rewrite <- app_assoc. }
  destruct (trace_init_old e d name data s0) as (init & final & -> & Hold).
  { intros stem ->. by rewrite tmp_name_starts_with_t in Hname. }
  rewrite length_app. simpl. intros Hlook Hi.
  rewrite lookup_app_l in Hlook by lia.
  rewrite Forall_forall in Hold. apply Hold.
  by eapply list_elem_of_lookup_2.
Qed.

End AtomicWriteOutcome.

(** ** [enqueue_command]: outcome *)

Section EnqueueOutcome.
Context {codec : JsonCodec}.
Variable SCRIPT_DIR : path.

Local Abbreviation CF := (CONTROL_FILE SCRIPT_DIR).
Local Abbreviation control_dir := (SCRIPT_DIR ++ ["control"]).

Lemma bind_inv {A B} (m : M A) (k : A → M B) s r s' :
  bind m k s = (r, s') →
  (∃ ex, m s = (Raise ex, s') ∧ r = Raise ex) ∨
  (∃ a s1, m s = (Ok a, s1) ∧ k a s1 = (r, s')).
Proof.
  unfold bind. destruct (m s) as [[a|ex] s1].
  - intros H. right. eauto.
  - intros [= <- <-]. left. eauto.
Qed.

Lemma bind_ext {A B} (m : M A) (k1 k2 : A → M B) s :
  (∀ a s', k1 a s' = k2 a s') → bind m k1 s = bind m k2 s.
Proof. intros H. unfold bind. destruct (m s) as [[a|ex] s']; [apply H|done]. Qed.

(** The document the call starts from, read from the file or made up. *)
Local Abbreviation load_control e :=
  (fun s0 : fs =>
     if path_exists s0 CF
     then json_load e CF
     else ret (JObj [("pending", JArr [])])).

Lemma enqueue_command_unfold e c s :
  enqueue_command SCRIPT_DIR e c s =
  (run mkdir_p e (parent CF);
   do s0 <- get_fs;
   do control <- load_control e s0;
   do d <- lift (enqueue_pure control c);
   run atomic_write e CF (json_dumps d +:+ nl);
   ret d) s.
Proof.
  unfold enqueue_command.
  apply bind_ext. intros _ s1. apply bind_ext. intros s0 s2.
  apply bind_ext. intros control s3.
  unfold enqueue_pure, bind, lift, ret, raise.
  destruct (py_contains "pending" control) as [present|ex]; [|done].
  destruct (negb present); [|by destruct (py_append_at _ _ _)].
  destruct (py_setitem control "pending" (JArr [])); [|done].
  by destruct (py_append_at _ _ _).
Qed.

Lemma load_control_state e s1 r s2 : load_control e s1 s1 = (r, s2) → s2 = s1.
Proof.
  unfold ret, raise.
  destruct (path_exists s1 CF); [|by intros [= _ <-]].
  unfold json_load, bind.
  destruct (read_text e CF s1) as [[text|ex] s3] eqn:Hread.
  - apply read_text_inv in Hread as [-> _].
    unfold lift, ret, raise. destruct (json_loads text); by intros [= _ <-].
  - apply read_text_inv in Hread as [-> _]. by intros [= _ <-].
Qed.

Lemma append_at_ok obj k x d :
  py_append_at obj k x = Ok d →
  ∃ kvs q, d = JObj kvs ∧ PyDict.get k kvs = Some (JArr (q ++ [x])).
Proof.
  unfold py_append_at, py_getitem.
  destruct obj as [| | | | |kvs]; try done.
  destruct (PyDict.get k kvs) as [[| | | |q|]|]; try done. simpl.
  intros [= <-]. eexists _, q. split; [done|]. apply get_set_eq.
Qed.

Lemma enqueue_pure_ok control c d :
  enqueue_pure control c = Ok d →
  ∃ kvs q, d = JObj kvs ∧ PyDict.get "pending" kvs = Some (JArr (q ++ [c])).
Proof.
  unfold enqueue_pure.
  destruct (py_contains "pending" control) as [present|]; [|done].
  destruct (if negb present then _ else _); [|done]. apply append_at_ok.
Qed.

(** How a call ends, whatever the environment. *)
Lemma enqueue_outcome e c s r s' :
  enqueue_command SCRIPT_DIR e c s = (r, s') →
  (∃ ex, r = Raise ex ∧ files s' = files s) ∨
  (∃ d, r = Ok d ∧ files s' = <[CF := json_dumps d +:+ nl]> (files s) ∧
        ∃ kvs q, d = JObj kvs ∧ PyDict.get "pending" kvs = Some (JArr (q ++ [c]))).
Proof.
  rewrite enqueue_command_unfold. intros Hrun.
  apply bind_inv in Hrun as [(ex & Hmk & ->)|([] & s1 & Hmk & Hrun)].
  { left. eexists. split; [done|]. by rewrite (mkdir_p_raise _ _ _ _ _ Hmk). }
  pose proof (mkdir_p_files _ _ _ _ _ Hmk) as Hf1.
  apply bind_inv in Hrun as [(ex & [=] & _)|(s0 & ? & [= <- <-] & Hrun)].
  apply bind_inv in Hrun as [(ex & Hload & ->)|(control & s2 & Hload & Hrun)];
    apply load_control_state in Hload as ->.
  { left. eauto. }
  destruct (enqueue_pure control c) as [d|ex] eqn:Hd.
  2:{ injection Hrun as <- <-. left. eauto. }
  apply bind_inv in Hrun as [(ex & [=] & _)|(? & ? & [= <- <-] & Hrun)].
  apply bind_inv in Hrun as [(ex & Haw & ->)|([] & s3 & Haw & [= <- <-])];
    destruct (atomic_write_files _ _ _ _ _ _ Haw) as [(ex' & ? & Hf)|[? Hf]];
    simplify_eq.
  - left. eexists. split; [done|]. by rewrite Hf.
  - right. eexists. split; [done|].
    rewrite Hf, Hf1. split; [done|]. by apply (enqueue_pure_ok control).
Qed.

(** X4. A call of [enqueue_command] that raises, for whatever reason,
    leaves every file as it was; a call that returns has changed no file
    but the queue file. *)
Theorem enqueue_touches_queue_file_only (e : env) (c : json) (s : fs) :
  match enqueue_command SCRIPT_DIR e c s with
  | (Raise _, s') => files s' = files s
  | (Ok _, s') => ∀ p, p ≠ CF → files s' !! p = files s !! p
  end.
Proof.
  destruct (enqueue_command SCRIPT_DIR e c s) as [r s'] eqn:Hrun.
  destruct (enqueue_outcome _ _ _ _ _ Hrun) as [(ex & -> & Hf)|(d & -> & Hf & _)];
    [done|].
  intros p Hp. by rewrite Hf, lookup_insert_ne.
Qed.

(** X5. What a successful call returns is what it stored: the queue file
    holds the serialised returned document followed by a newline, and
    that document is an object whose [pending] is a list ending with the
    command just given. *)
Theorem enqueue_returns_what_it_stored (e : env) (c : json) (s : fs) :
  match enqueue_command SCRIPT_DIR e c s with
  | (Raise _, _) => True
  | (Ok d, s') =>
      files s' !! CF = Some (json_dumps d +:+ nl) ∧
      ∃ kvs q, d = JObj kvs ∧ PyDict.get "pending" kvs = Some (JArr (q ++ [c]))
  end.
Proof.
  destruct (enqueue_command SCRIPT_DIR e c s) as [r s'] eqn:Hrun.
  destruct (enqueue_outcome _ _ _ _ _ Hrun) as [(ex & -> & Hf)|(d & -> & Hf & Hd)];
    [done|].
  split; [|done]. rewrite Hf. apply lookup_insert_eq.
Qed.

Lemma not_queue_document_raises doc c :
  is_queue_document doc = false →
  ∃ ex, enqueue_pure doc c = Raise ex ∧ exn_cls ex ≠ JSONDecodeError.
Proof.
  unfold is_queue_document, enqueue_pure.
  destruct doc as [| | |str|xs|kvs]; simpl; try (by eexists).
  - intros _. destruct (has_substring _ str); simpl; by eexists.
  - intros _. destruct (existsb _ xs); simpl; by eexists.
  - rewrite has_get. unfold py_append_at, py_getitem.
    destruct (PyDict.get "pending" kvs) as [v|] eqn:Hget; [|done].
    rewrite bool_decide_eq_true_2 by eauto. simpl. rewrite Hget.
    destruct v; try done; intros _; by eexists.
Qed.

(** A queue file that parses, but not to a queue document. *)
Lemma enqueue_malformed e s text doc (c : json) :
  files s !! CF = Some text →
  json_loads (universal_newlines text) = Ok doc →
  is_queue_document doc = false →
  mkdir_fault e = None →
  read_fault e = None →
  forallb (fun a => negb (bool_decide (is_Some (files s !! a))))
          (ancestors_or_self control_dir) = true →
  ∃ ex s', enqueue_command SCRIPT_DIR e c s = (Raise ex, s') ∧
           exn_cls ex ≠ JSONDecodeError ∧ files s' = files s.
Proof.
  intros Hfile Hload Hdoc Hmk Hrf Hanc.
  destruct (not_queue_document_raises doc c Hdoc) as (ex & Hpure & Hcls).
  set (s1 := Fs (files s) (dirs s ∪ list_to_set (ancestors_or_self control_dir))).
  exists ex, s1. split_and!; [|done|done].
  rewrite enqueue_command_unfold, control_parent.
  run_ok (mkdir_p_succeeds _ _ _ Hmk Hanc).
  run_ok (eq_refl : get_fs s1 = (Ok s1, s1)).
  run_ok_by idtac.
  { rewrite (file_exists s1 CF text Hfile). unfold json_load.
    run_ok_by ltac:(apply read_text_ok; [exact Hrf|exact Hfile]).
    by rewrite Hload. }
  apply bind_raise. by rewrite Hpure.
Qed.

End EnqueueOutcome.

Section EnqueueSequence.
Context {codec : JsonCodec}.
Variable SCRIPT_DIR : path.

Local Abbreviation CF := (CONTROL_FILE SCRIPT_DIR).
Local Abbreviation control_dir := (SCRIPT_DIR ++ ["control"]).





End EnqueueSequence.

(** ** The request handlers *)

Section Handlers.
Context {codec : JsonCodec}.
Variable SCRIPT_DIR : path.

Local Abbreviation CF := (CONTROL_FILE SCRIPT_DIR).
Local Abbreviation CONF := (CONFIG_FILE SCRIPT_DIR).

Lemma do_POST_command e req :
  req_path req = "/api/command" →
  do_POST SCRIPT_DIR e req = handle_command SCRIPT_DIR e req.
Proof. intros H. unfold do_POST. rewrite H. by rewrite bool_decide_eq_true_2. Qed.

Lemma do_POST_settings e req :
  req_path req = "/api/settings" →
  do_POST SCRIPT_DIR e req = handle_settings SCRIPT_DIR e req.
Proof.
  intros H. unfold do_POST. rewrite H.
  rewrite bool_decide_eq_false_2 by done. by rewrite bool_decide_eq_true_2.
Qed.

Lemma read_body_empty req s :
  req_length req = NoHeader ∨ req_length req = Length 0 →
  read_body req s = (Ok (JObj []), s).
Proof. unfold read_body. by intros [-> | ->]. Qed.

Lemma read_body_parsed req s n body :
  req_length req = Length (S n) →
  json_loads_bytes (take_str (S n) (rfile req)) = Ok body →
  read_body req s = (Ok body, s).
Proof. intros Hlen Hbody. unfold read_body. by rewrite Hlen, Hbody. Qed.

(** X7. A POST to [/api/command] without a body, or with a JSON object
    that has no [command] key, is answered 400 with the message about
    the missing field, and nothing on disk is touched: not even the
    control directory is created. *)
Theorem command_without_field_is_400 (e : env) (req : request) (s : fs) :
  req_path req = "/api/command" →
  (req_length req = NoHeader ∨ req_length req = Length 0 ∨
   ∃ n kvs, req_length req = Length (S n) ∧
            json_loads_bytes (take_str (S n) (rfile req)) = Ok (JObj kvs) ∧
            PyDict.has "command" kvs = false) →
  do_POST SCRIPT_DIR e req s
  = (JsonResponse 400 (JObj [("error", JStr "Missing 'command' field")]), s).
Proof.
  intros Hpath Hbody. rewrite (do_POST_command _ _ Hpath).
  assert (∃ kvs, read_body req s = (Ok (JObj kvs), s) ∧
                 PyDict.has "command" kvs = false) as (kvs & Hread & Hhas).
  { destruct Hbody as [H|[H|(n & kvs & Hlen & Hload & Hhas)]].
    - exists []. split; [apply read_body_empty; by left|done].
    - exists []. split; [apply read_body_empty; by right|done].
    - exists kvs. split; [by eapply read_body_parsed|done]. }
  unfold handle_command, respond.
  rewrite (bind_ok _ _ _ _ _ Hread). cbv beta.
  rewrite (bind_ok _ _ _ (PyDict.has "command" kvs) s eq_refl). cbv beta.
  by rewrite Hhas.
Qed.

(** X8. A body on which [json.loads] raises [json.JSONDecodeError] is
    answered 400 ["Invalid JSON"] on both endpoints.  When it raises
    anything else (bytes that do not decode, a document nested too
    deep, an integer literal beyond the digit limit) the answer is 500
    with the error's text.  Either way the file system is left as it
    was. *)
Theorem unparsed_body_is_400_or_500
    (e : env) (req : request) (s : fs) (n : nat) (ex : exn) :
  req_path req = "/api/command" ∨ req_path req = "/api/settings" →
  req_length req = Length (S n) →
  json_loads_bytes (take_str (S n) (rfile req)) = Raise ex →
  do_POST SCRIPT_DIR e req s
  = (match exn_cls ex with
     | JSONDecodeError => JsonResponse 400 (JObj [("error", JStr "Invalid JSON")])
     | _ => JsonResponse 500 (JObj [("error", JStr (exn_msg ex))])
     end, s).
Proof.
  intros Hpath Hlen Hbody.
  assert (read_body req s = (Raise ex, s))
    as Hread by (unfold read_body; by rewrite Hlen, Hbody).
  destruct Hpath as [Hpath|Hpath].
  - rewrite (do_POST_command _ _ Hpath). unfold handle_command, respond.
    rewrite (bind_raise _ _ _ _ _ Hread). by destruct (exn_cls ex).
  - rewrite (do_POST_settings _ _ Hpath). unfold handle_settings, respond.
    rewrite (bind_raise _ _ _ _ _ Hread). by destruct (exn_cls ex).
Qed.

(** X9. A POST to [/api/settings] without a body, or with a body that
    Python counts as false (an empty object, list or string, zero,
    [false], [null]), is answered 400 ["Empty body"]; the settings file
    is not even looked at. *)
Theorem empty_settings_body_is_400 (e : env) (req : request) (s : fs) :
  req_path req = "/api/settings" →
  (req_length req = NoHeader ∨ req_length req = Length 0 ∨
   ∃ n body, req_length req = Length (S n) ∧
             json_loads_bytes (take_str (S n) (rfile req)) = Ok body ∧
             py_truthy body = false) →
  do_POST SCRIPT_DIR e req s
  = (JsonResponse 400 (JObj [("error", JStr "Empty body")]), s).
Proof.
  intros Hpath Hbody. rewrite (do_POST_settings _ _ Hpath).
  assert (∃ body, read_body req s = (Ok body, s) ∧ py_truthy body = false)
    as (body & Hread & Hfalsy).
  { destruct Hbody as [H|[H|(n & body & Hlen & Hload & Hfalsy)]].
    - exists (JObj []). split; [apply read_body_empty; by left|done].
    - exists (JObj []). split; [apply read_body_empty; by right|done].
    - exists body. split; [by eapply read_body_parsed|done]. }
  unfold handle_settings, respond.
  rewrite (bind_ok _ _ _ _ _ Hread). cbv beta. by rewrite Hfalsy.
Qed.

(** X10. A [Content-Length] header that is not a number makes [int()]
    raise [ValueError]: both endpoints answer 500 with the error's text
    and touch nothing. *)
Theorem malformed_content_length_is_500 (e : env) (req : request) (s : fs) :
  req_path req = "/api/command" ∨ req_path req = "/api/settings" →
  req_length req = NotANumber →
  ∃ msg, do_POST SCRIPT_DIR e req s
         = (JsonResponse 500 (JObj [("error", JStr msg)]), s).
Proof.
  intros Hpath Hlen. eexists.
  assert (read_body req s
          = (Raise (Exn ValueError "invalid literal for int() with base 10"), s))
    as Hread by (unfold read_body; by rewrite Hlen).
  destruct Hpath as [Hpath|Hpath].
  - rewrite (do_POST_command _ _ Hpath). unfold handle_command, respond.
    by rewrite (bind_raise _ _ _ _ _ Hread).
  - rewrite (do_POST_settings _ _ Hpath). unfold handle_settings, respond.
    by rewrite (bind_raise _ _ _ _ _ Hread).
Qed.

(** X11. A body that is a number, a boolean or [null] cannot be searched
    for the [command] key: [/api/command] answers 500, not 400, and
    touches nothing. *)
Theorem scalar_command_body_is_500
    (e : env) (req : request) (s : fs) (n : nat) (body : json) :
  req_path req = "/api/command" →
  req_length req = Length (S n) →
  json_loads_bytes (take_str (S n) (rfile req)) = Ok body →
  match body with JNull | JBool _ | JInt _ => True | _ => False end →
  ∃ msg, do_POST SCRIPT_DIR e req s
         = (JsonResponse 500 (JObj [("error", JStr msg)]), s).
Proof.
  intros Hpath Hlen Hbody Hscalar. eexists.
  rewrite (do_POST_command _ _ Hpath). unfold handle_command, respond.
  rewrite (bind_ok _ _ _ _ _ (read_body_parsed _ s _ _ Hlen Hbody)). cbv beta.
  destruct body; try done; by erewrite bind_raise by reflexivity.
Qed.


(** X13. When the queue file parses but not to a queue document (the
    top level is not an object, or [pending] is not a list), the command
    is answered 500 and the file is left as it was. *)
Theorem malformed_queue_document_is_500
    (e : env) (req : request) (s : fs) (n : nat) (body : json)
    (text : string) (doc : json) :
  req_path req = "/api/command" →
  req_length req = Length (S n) →
  json_loads_bytes (take_str (S n) (rfile req)) = Ok body →
  py_contains "command" body = Ok true →
  files s !! CF = Some text →
  json_loads (universal_newlines text) = Ok doc →
  is_queue_document doc = false →
  mkdir_fault e = None →
  read_fault e = None →
  forallb (fun a => negb (bool_decide (is_Some (files s !! a))))
          (ancestors_or_self (SCRIPT_DIR ++ ["control"])) = true →
  ∃ msg s',
    do_POST SCRIPT_DIR e req s
    = (JsonResponse 500 (JObj [("error", JStr msg)]), s') ∧
    files s' = files s.
Proof.
  intros Hpath Hlen Hbody Hcmd Hfile Hload Hdoc Hmk Hrf Hanc.
  destruct (enqueue_malformed SCRIPT_DIR e s text doc body
              Hfile Hload Hdoc Hmk Hrf Hanc) as (ex & s' & Henq & Hcls & Hfiles).
  exists (exn_msg ex), s'. split; [|done].
  rewrite (do_POST_command _ _ Hpath). unfold handle_command, respond.
  rewrite (bind_ok _ _ _ _ _ (read_body_parsed _ s _ _ Hlen Hbody)). cbv beta.
  rewrite (bind_ok _ _ _ _ _ (lift_ok _ _ s Hcmd)). cbn [negb]. cbv beta.
  rewrite (bind_raise _ _ _ _ _ Henq).
  by destruct (exn_cls ex).
Qed.

End Handlers.

(** ** The sanitizer and the values it lets through *)

Section SanitizerExact.

Lemma well_formed_nl_match b : well_formed b = true → safe_value_match (b +:+ nl) = true.
Proof.
  unfold well_formed. intros [Hne Hall]%andb_true_iff.
  induction b as [|c b IH]; [done|]. simpl in *.
  apply andb_true_iff in Hall as [-> Hall]. simpl.
  destruct b as [|c' b']; [done|]. rewrite IH; [by rewrite orb_true_r|done|done].
Qed.

(** X14. The sanitizer accepts exactly the values made of one or more
    characters of the class, and those same values followed by one
    newline; nothing else passes. *)
Theorem sanitizer_accepts_exactly (s : string) :
  safe_value_match s = true ↔
  well_formed s = true ∨ ∃ b, well_formed b = true ∧ s = b +:+ nl.
Proof.
  split.
  - intros (b & Hb & [->| ->])%safe_value_match_inv; [by left|right; eauto].
  - intros [H|(b & Hb & ->)]; [by apply well_formed_match|by apply well_formed_nl_match].
Qed.

Lemma digit_in_class x : in_class (pretty_N_char x) = true.
Proof. unfold pretty_N_char. by repeat case_match. Qed.

Lemma pretty_N_go_class x s :
  all_in_class s = true → all_in_class (pretty_N_go x s) = true.
Proof.
  revert s. induction (N.lt_wf_0 x) as [x _ IH]; intros s Hs.
  assert (x = 0 ∨ 0 < x)%N as [->|Hpos] by lia.
  - by rewrite pretty_N_go_0.
  - rewrite pretty_N_go_step by done. apply IH.
    + by apply N.div_lt.
    + simpl. by rewrite digit_in_class.
Qed.

Lemma pretty_N_go_nonempty x s : s ≠ "" → pretty_N_go x s ≠ "".
Proof.
  revert s. induction (N.lt_wf_0 x) as [x _ IH]; intros s Hs.
  assert (x = 0 ∨ 0 < x)%N as [->|Hpos] by lia.
  - by rewrite pretty_N_go_0.
  - rewrite pretty_N_go_step by done. apply IH; [by apply N.div_lt|done].
Qed.

Lemma pretty_positive_well_formed (p : positive) : well_formed (pretty p) = true.
Proof.
  unfold pretty, pretty_positive, pretty, pretty_N.
  rewrite decide_False by done.
  unfold well_formed. apply andb_true_iff. split.
  - apply negb_true_iff, bool_decide_eq_false.
    rewrite pretty_N_go_step by done. by apply pretty_N_go_nonempty.
  - by apply pretty_N_go_class.
Qed.

Lemma pretty_Z_well_formed (z : Z) : well_formed (pretty z) = true.
Proof.
  destruct z as [|p|p]; unfold pretty, pretty_Z; [done|..].
  - apply pretty_positive_well_formed.
  - pose proof (pretty_positive_well_formed p) as Hp.
    unfold well_formed in *. simpl.
    by apply andb_true_iff in Hp as [_ ->].
Qed.

(** X15. How a value of each JSON type fares.  [str] returns for a
    boolean, for [null] and for an integer of at most 4300 digits
    (negative ones included), and the text it gives passes; for an
    integer of more digits [str] raises [ValueError].  An array or an
    object never passes: either [str] raises on one of its elements, or
    its text opens with a bracket or a brace. *)
Theorem value_types_through_sanitizer (value : json) :
  match value with
  | JBool _ | JNull => passes_sanitizer value = true
  | JInt n =>
      if (int_digits n <=? INT_MAX_STR_DIGITS)%N
      then py_str value = Ok (pretty n) ∧ safe_value_match (pretty n) = true
      else ∃ msg, py_str value = Raise (Exn ValueError msg)
  | JArr _ | JObj _ => passes_sanitizer value = false
  | JStr s => py_str value = Ok s
  end.
Proof.
  destruct value as [|[]|z| | |]; try done.
  - unfold py_str, py_repr, int_str.
    destruct (N.leb_spec (int_digits z) INT_MAX_STR_DIGITS) as [Hle|Hgt].
    + destruct (N.ltb_spec INT_MAX_STR_DIGITS (int_digits z)); [lia|].
      split; [done|]. apply well_formed_match, pretty_Z_well_formed.
    + destruct (N.ltb_spec INT_MAX_STR_DIGITS (int_digits z)); [|lia].
      by eexists.
  - unfold passes_sanitizer, py_str. cbn [py_repr].
    match goal with
    | |- context [match ?x with Ok _ => _ | Raise _ => _ end] => by destruct x
    end.
  - unfold passes_sanitizer, py_str. cbn [py_repr].
    match goal with
    | |- context [match ?x with Ok _ => _ | Raise _ => _ end] => by destruct x
    end.
Qed.

(** [str] raises nothing but the [ValueError] of the digit limit. *)
Lemma py_repr_raises : ∀ j ex, py_repr j = Raise ex → exn_cls ex = ValueError.
Proof.
  fix IH 1. intros j ex. destruct j as [|[]|n|str|xs|kvs]; simpl; try done.
  - unfold int_str. case_match; [by intros [= <-]|done].
  - match goal with
    | |- context [match ?x with Ok _ => _ | Raise _ => _ end] =>
        destruct x as [body|ex'] eqn:Hitems
    end; [done|]. intros [= <-].
    revert Hitems. induction xs as [|x xs IHxs]; [done|].
    destruct (py_repr x) as [r|ex1] eqn:Hx.
    + destruct xs as [|y ys]; [done|].
      match goal with
      | |- context [match ?x with Ok _ => _ | Raise _ => _ end] =>
          destruct x as [rs|ex2] eqn:Hrest
      end; [done|]. intros [= <-]. by apply IHxs.
    + intros [= <-]. by apply (IH x).
  - match goal with
    | |- context [match ?x with Ok _ => _ | Raise _ => _ end] =>
        destruct x as [body|ex'] eqn:Hitems
    end; [done|]. intros [= <-].
    revert Hitems. induction kvs as [|[k v] kvs IHkvs]; [done|].
    destruct (py_repr v) as [r|ex1] eqn:Hv.
    + destruct kvs as [|y ys]; [done|].
      match goal with
      | |- context [match ?x with Ok _ => _ | Raise _ => _ end] =>
          destruct x as [rs|ex2] eqn:Hrest
      end; [done|]. intros [= <-]. by apply IHkvs.
    + intros [= <-]. by apply (IH v).
Qed.

Lemma py_str_raises v ex : py_str v = Raise ex → exn_cls ex = ValueError.
Proof. destruct v; try done; apply py_repr_raises. Qed.

Lemma loop_raises_value_error items c upd ex :
  settings_loop items c upd = Raise ex → exn_cls ex = ValueError.
Proof.
  revert c upd. induction items as [|[k v] items IH]; intros c upd; simpl; [done|].
  destruct (negb (allowed k)); [by apply IH|].
  destruct (py_str v) as [t|ex'] eqn:Hv; [|intros [= <-]; by eapply py_str_raises].
  destruct (negb (safe_value_match t)); [by apply IH|].
  destruct (pattern_search k c); by apply IH.
Qed.

End SanitizerExact.

(** ** The settings loop: what it reports and what it keeps *)

Section LoopExact.

Local Abbreviation klines k c := (List.filter (key_line k) (lines c)).

Lemma klines_sub_own_length k sv c :
  allowed k = true → safe_value_match sv = true →
  length (klines k (pattern_sub k sv c)) = length (klines k c).
Proof.
  intros Hk Hsv. rewrite pattern_sub_lines, filter_concat_map.
  induction (lines c) as [|l ls IH]; [done|]. simpl.
  rewrite length_app, IH. unfold sub_line.
  destruct (key_line k l) eqn:Hl; simpl; [|by rewrite Hl].
  destruct (lines_new_line k sv (allowed_no_nl _ Hk) Hsv)
    as (b & Hb & [[-> ->]|[-> ->]]); simpl.
  - by rewrite key_line_new_line.
  - rewrite key_line_own.
    assert (key_line k dq = false) as ->; [|done].
    unfold key_line. destruct k as [|a k]; simpl; [done|].
    case_decide; [|done]. by destruct k.
Qed.

Lemma klines_sub_length k k1 sv c :
  allowed k = true → allowed k1 = true → safe_value_match sv = true →
  length (klines k (pattern_sub k1 sv c)) = length (klines k c).
Proof.
  intros Hk Hk1 Hsv. destruct (decide (k = k1)) as [->|Hne].
  - by apply klines_sub_own_length.
  - by rewrite klines_sub_ne.
Qed.

Lemma loop_klines_length items c upd c' upd' k :
  allowed k = true →
  settings_loop items c upd = Ok (c', upd') →
  length (klines k c') = length (klines k c).
Proof.
  intros Hk. revert c upd.
  induction items as [|[k1 v1] items IH]; intros c upd; simpl.
  { by intros [= <- <-]. }
  destruct (allowed k1) eqn:Hk1; simpl; [|by apply IH].
  destruct (py_str v1) as [t|ex]; [|done].
  destruct (safe_value_match t) eqn:Hsv; simpl; [|by apply IH].
  destruct (pattern_search k1 c); [|by apply IH].
  intros Hrun. rewrite (IH _ _ Hrun). by apply klines_sub_length.
Qed.

Lemma search_by_length k c :
  pattern_search k c = negb (length (klines k c) =? 0).
Proof.
  unfold pattern_search. rewrite existsb_filter.
  by destruct (List.filter (key_line k) (lines c)).
Qed.

Lemma loop_keeps_search items c upd c' upd' k :
  allowed k = true →
  settings_loop items c upd = Ok (c', upd') →
  pattern_search k c' = pattern_search k c.
Proof.
  intros Hk Hrun. by rewrite !search_by_length, (loop_klines_length _ _ _ _ _ _ Hk Hrun).
Qed.

Lemma loop_updated_exact items c0 :
  ∀ c upd c' upd',
    (∀ k, allowed k = true → pattern_search k c = pattern_search k c0) →
    settings_loop items c upd = Ok (c', upd') →
    upd' = upd ++ map fst (List.filter (applies c0) items).
Proof.
  induction items as [|[k v] items IH]; intros c upd c' upd' Hc; simpl.
  { intros [= <- <-]. by rewrite app_nil_r. }
  unfold applies at 1, passes_sanitizer. simpl.
  destruct (allowed k) eqn:Hk; simpl; [|by apply IH].
  destruct (py_str v) as [t|ex]; [|done].
  destruct (safe_value_match t) eqn:Hsv; simpl; [|by apply IH].
  rewrite <- (Hc k Hk).
  destruct (pattern_search k c) eqn:Hs; [|by apply IH].
  intros Hrun. apply IH in Hrun.
  - rewrite Hrun. simpl. by rewrite <- app_assoc.
  - intros k' Hk'. rewrite <- (Hc k' Hk').
    rewrite !search_by_length. by rewrite klines_sub_length.
Qed.

Lemma loop_content_unchanged items c upd c' :
  settings_loop items c upd = Ok (c', upd) → c' = c.
Proof.
  intros Hrun.
  pose proof (loop_updated_exact items c c upd c' upd (fun _ _ => eq_refl) Hrun)
    as Hnil.
  assert (List.filter (applies c) items = []) as Hnone.
  { apply (f_equal length) in Hnil. rewrite length_app, length_map in Hnil.
    destruct (List.filter (applies c) items); [done|simpl in Hnil; lia]. }
  clear Hnil. revert upd Hrun.
  induction items as [|[k v] items IH]; intros upd; simpl.
  { by intros [= <-]. }
  simpl in Hnone. unfold applies at 1, passes_sanitizer in Hnone. simpl in Hnone.
  destruct (allowed k); simpl in *; [|by apply IH].
  destruct (py_str v) as [t|ex]; [|done].
  destruct (safe_value_match t); simpl in *; [|by apply IH].
  destruct (pattern_search k c); [done|by apply IH].
Qed.

End LoopExact.

(** ** Sending the same settings again *)

Section Resend.

Lemma lines_unlines_plain ls :
  ls ≠ [] → Forall (fun l => has_char NL l = false) ls → lines (unlines ls) = ls.
Proof.
  intros Hne Hnl. rewrite lines_unlines by done.
  induction Hnl as [|l ls Hl _ IH]; [done|]. simpl.
  rewrite (lines_single _ Hl). simpl. f_equal.
  destruct ls as [|l' ls']; [done|]. by apply IH.
Qed.

Lemma match_plain_well_formed s :
  safe_value_match s = true → has_char NL s = false → well_formed s = true.
Proof.
  intros (b & Hb & [->| ->])%safe_value_match_inv; [done|].
  rewrite has_char_app. simpl. by rewrite orb_true_r.
Qed.

Lemma new_line_plain k sv :
  allowed k = true → well_formed sv = true → has_char NL (new_line k sv) = false.
Proof.
  intros Hk Hsv. unfold new_line.
  rewrite !has_char_app, (allowed_no_nl _ Hk). simpl.
  rewrite orb_false_r. apply all_in_class_no_nl.
  by apply andb_true_iff in Hsv as [_ ?].
Qed.

Lemma pattern_sub_plain k sv c :
  allowed k = true → well_formed sv = true →
  lines (pattern_sub k sv c)
  = map (fun l => if key_line k l then new_line k sv else l) (lines c).
Proof.
  intros Hk Hsv. rewrite pattern_sub_lines.
  induction (lines c) as [|l ls IH]; [done|]. simpl. rewrite IH.
  unfold sub_line. destruct (key_line k l); [|done].
  by rewrite (lines_single _ (new_line_plain k sv Hk Hsv)).
Qed.

Lemma foreign_line_not_owned k l :
  allowed k = true → foreign_line l = true → key_line k l = false.
Proof.
  intros Hk Hl. unfold foreign_line in Hl. rewrite forallb_forall in Hl.
  apply negb_true_iff, Hl, list_elem_of_In.
  unfold allowed in Hk. by apply bool_decide_eq_true in Hk.
Qed.

Lemma owned_or_foreign l :
  foreign_line l = true ∨ ∃ k, allowed k = true ∧ key_line k l = true.
Proof.
  destruct (foreign_line l) eqn:Hf; [by left|right].
  unfold foreign_line in Hf.
  apply not_true_iff_false in Hf. rewrite forallb_forall in Hf.
  assert (existsb (fun k => key_line k l) ALLOWED_SETTINGS = true) as Hex.
  { destruct (existsb _ _) eqn:Hex; [done|]. exfalso. apply Hf.
    intros k Hk. apply negb_true_iff.
    destruct (key_line k l) eqn:Hkl; [|done].
    assert (existsb (fun k => key_line k l) ALLOWED_SETTINGS = true)
      by (apply existsb_exists; eauto). congruence. }
  apply existsb_exists in Hex as (k & Hk & Hkl). exists k. split; [|done].
  unfold allowed. by apply bool_decide_eq_true, list_elem_of_In.
Qed.

(** With values free of newlines the loop works line by line: each line
    is mapped by one function, which keeps foreign lines, keeps each
    line with its key, and treats all lines of one key alike. *)
Lemma loop_linewise items :
  (∀ k v t, (k, v) ∈ items → py_str v = Ok t → has_char NL t = false) →
  ∃ R : string → string,
    (∀ c upd c' upd', settings_loop items c upd = Ok (c', upd') →
                      c' = unlines (map R (lines c))) ∧
    (∀ l, has_char NL l = false → has_char NL (R l) = false) ∧
    (∀ l, foreign_line l = true → R l = l) ∧
    (∀ k l, allowed k = true → key_line k l = true → key_line k (R l) = true) ∧
    (∀ k, allowed k = true →
          (∀ l, key_line k l = true → R l = l) ∨
          (∃ t, ∀ l, key_line k l = true → R l = t)).
Proof.
  induction items as [|[k1 v1] items IH]; intros Hplain.
  { exists (fun l => l). split_and!; try done; [|by left].
    intros c upd c' upd' [= <- <-]. by rewrite map_id, unlines_lines. }
  destruct IH as (R0 & Hfst & Hnl & Hforeign & Hown & Hkind).
  { intros k v t Hin. apply (Hplain k v), elem_of_cons. by right. }
  destruct (allowed k1 && passes_sanitizer v1) eqn:Happ.
  2:{ exists R0. split_and!; try done.
      intros c upd c' upd'. simpl.
      apply andb_false_iff in Happ as [-> |Hp]; simpl; [by apply Hfst|].
      destruct (negb (allowed k1)); [by apply Hfst|].
      unfold passes_sanitizer in Hp.
      destruct (py_str v1) as [t|ex]; [|done]. rewrite Hp. simpl. by apply Hfst. }
  apply andb_true_iff in Happ as [Hk1 Hm]. unfold passes_sanitizer in Hm.
  destruct (py_str v1) as [t1|ex] eqn:Ht1; [|done].
  assert (well_formed t1 = true) as Hwf.
  { apply match_plain_well_formed; [done|].
    apply (Hplain k1 v1); [|done]. apply elem_of_cons. by left. }
  set (h := fun l => if key_line k1 l then new_line k1 t1 else l).
  exists (fun l => R0 (h l)). split_and!.
  - intros c upd c' upd'. simpl. rewrite Hk1, Ht1, Hm. simpl.
    destruct (pattern_search k1 c) eqn:Hs.
    + intros Hrun. by rewrite (Hfst _ _ _ _ Hrun), pattern_sub_plain, map_map.
    + intros Hrun. rewrite (Hfst _ _ _ _ Hrun).
      rewrite <- (pattern_sub_no_match k1 t1 c Hs) at 1.
      by rewrite pattern_sub_plain, map_map.
  - intros l Hl. apply Hnl. unfold h.
    destruct (key_line k1 l); [by apply new_line_plain|done].
  - intros l Hl. unfold h.
    rewrite (foreign_line_not_owned k1 l Hk1 Hl). by apply Hforeign.
  - intros k l Hk Hl. apply Hown; [done|]. unfold h.
    destruct (key_line k1 l) eqn:Hl1; [|done].
    rewrite (key_line_unique k1 k l); auto using allowed_no_eq, key_line_new_line.
  - intros k Hk. destruct (decide (k = k1)) as [->|Hne].
    + right. exists (R0 (new_line k1 t1)).
      intros l Hl. unfold h. by rewrite Hl.
    + assert (∀ l, key_line k l = true → h l = l) as Hh.
      { intros l Hl. unfold h.
        destruct (key_line k1 l) eqn:Hl1; [|done].
        destruct Hne. eapply key_line_unique; eauto using allowed_no_eq. }
      destruct (Hkind k Hk) as [Hid|(t & Ht)].
      * left. intros l Hl. rewrite (Hh l Hl). by apply Hid.
      * right. exists t. intros l Hl. rewrite (Hh l Hl). by apply Ht.
Qed.

Lemma loop_idempotent items c c1 upd :
  (∀ k v t, (k, v) ∈ items → py_str v = Ok t → has_char NL t = false) →
  settings_loop items c [] = Ok (c1, upd) →
  settings_loop items c1 [] = Ok (c1, upd).
Proof.
  intros Hplain Hrun.
  destruct (loop_linewise items Hplain) as (R & Hfst & Hnl & Hforeign & Hown & Hkind).
  assert (∀ l, R (R l) = R l) as Hidem.
  { intros l. destruct (owned_or_foreign l) as [Hf|(k & Hk & Hl)].
    - by rewrite !(Hforeign l Hf).
    - destruct (Hkind k Hk) as [Hid|(t & Ht)].
      + by rewrite !(Hid l Hl).
      + rewrite (Ht l Hl). apply Ht. rewrite <- (Ht l Hl). by apply Hown. }
  destruct (loop_returns items c1 [] (loop_returned _ _ _ _ Hrun)) as [[c2 upd2] Hrun2].
  rewrite Hrun2. f_equal. apply injective_projections; simpl.
  - rewrite (Hfst _ _ _ _ Hrun2), (Hfst _ _ _ _ Hrun).
    rewrite lines_unlines_plain.
    + by rewrite map_map, (map_ext _ R) by (intros; apply Hidem).
    + pose proof (lines_nonempty c). by destruct (lines c).
    + apply List.Forall_forall. intros l' (l & <- & Hin)%in_map_iff.
      apply Hnl. pose proof (lines_no_nl c) as Hall.
      rewrite List.Forall_forall in Hall. by apply Hall.
  - rewrite (loop_updated_exact items c c1 [] c2 upd2); [|
      intros k Hk; by eapply loop_keeps_search|done].
    by rewrite (loop_updated_exact items c c [] c1 upd (fun _ _ => eq_refl) Hrun).
Qed.

End Resend.

(** ** [update_settings]: outcome *)

Section SettingsOutcome.
Context {codec : JsonCodec}.
Variable SCRIPT_DIR : path.

Local Abbreviation CONF := (CONFIG_FILE SCRIPT_DIR).
Local Abbreviation klines k c := (List.filter (key_line k) (lines c)).

Lemma ralph_conf_not_tmp stem : "ralph.conf" ≠ tmp_name stem.
Proof. intros H. by apply (f_equal (starts_with "t")) in H. Qed.

(** How a call ends, whatever the environment and the payload. *)
Lemma update_settings_outcome e settings s r s' :
  update_settings SCRIPT_DIR e settings s = (r, s') →
  (files s' = files s ∧
   (r = Ok (JObj [("error", JStr "ralph.conf not found")]) ∨
    r = Ok (JObj [("updated", JArr [])]) ∨ ∃ ex, r = Raise ex)) ∨
  (∃ items content c' upd,
     settings = JObj items ∧ files s !! CONF = Some content ∧
     settings_loop items (universal_newlines content) [] = Ok (c', upd) ∧
     upd ≠ [] ∧
     r = Ok (JObj [("updated", JArr (map JStr upd))]) ∧
     files s' = <[CONF := c']> (files s)).
Proof.
  intros Hrun.
  destruct (files s !! CONF) as [content|] eqn:Hfile.
  - assert ((∃ items, settings = JObj items) ∨ ¬ (∃ items, settings = JObj items))
      as [[items ->]|Hnot]
      by (destruct settings; eauto; right; by intros [? ?]).
    + rewrite (update_settings_unfold _ _ _ _ _ Hfile) in Hrun.
      destruct (read_fault e).
      { injection Hrun as <- <-. left. eauto 10. }
      destruct (settings_loop items (universal_newlines content) [])
        as [[c' upd]|ex] eqn:Hloop.
      2:{ injection Hrun as <- <-. left. eauto 10. }
      destruct (after_loop_files _ _ _ _ _ _ Hrun) as [(Hf & Hr & _)|(Hne & -> & Hf)].
      * left. split; [done|]. destruct Hr as [->|[ex ->]]; eauto.
      * right. eexists _, _, _, _. by split_and!.
    + left. revert Hrun. unfold update_settings.
      rewrite (bind_ok _ _ _ _ _ (eq_refl : get_fs s = (Ok s, s))).
      rewrite (file_exists _ _ _ Hfile). cbn [negb].
      unfold bind. destruct (read_text e CONF s) as [r0 s0] eqn:Hread.
      apply read_text_inv in Hread as [-> _].
      destruct r0; destruct settings; try (destruct Hnot; by eauto);
        intros [= <- <-]; eauto 10.
  - left. revert Hrun. unfold update_settings.
    rewrite (bind_ok _ _ _ _ _ (eq_refl : get_fs s = (Ok s, s))).
    destruct (path_exists s CONF); cbn [negb].
    + unfold bind. destruct (read_text e CONF s) as [r0 s0] eqn:Hread.
      apply read_text_inv in Hread as [-> Hc].
      destruct r0 as [c|ex].
      * destruct (Hc c eq_refl) as (c0 & Hc0 & _). congruence.
      * intros [= <- <-]. eauto 10.
    + intros [= <- <-]. eauto 10.
Qed.

(** X16. Whatever the payload and the environment, [update_settings]
    changes no file but the settings file, and a call that raises leaves
    every file as it was. *)
Theorem update_settings_touches_settings_file_only
    (e : env) (settings : json) (s : fs) :
  match update_settings SCRIPT_DIR e settings s with
  | (Raise _, s') => files s' = files s
  | (Ok _, s') => ∀ p, p ≠ CONF → files s' !! p = files s !! p
  end.
Proof.
  destruct (update_settings SCRIPT_DIR e settings s) as [r s'] eqn:Hrun.
  destruct (update_settings_outcome _ _ _ _ _ Hrun)
    as [(Hf & Hr)|(items & content & c' & upd & -> & Hfile & Hloop & Hne & -> & Hf)].
  - destruct r; [|done]. intros p _. by rewrite Hf.
  - intros p Hp. by rewrite Hf, lookup_insert_ne.
Qed.

(** The call returns when nothing fails and every value the loop prints
    has a text. *)
Lemma update_settings_returns e items s content :
  files s !! CONF = Some content →
  writable e s CONF = true →
  values_have_text items = true →
  ∃ r s', update_settings SCRIPT_DIR e (JObj items) s = (Ok r, s').
Proof.
  intros Hfile Hw Htext.
  destruct (loop_returns items (universal_newlines content) [] Htext)
    as [[c' upd] Hloop].
  rewrite (update_settings_unfold _ _ _ _ _ Hfile).
  rewrite (writable_read_fault _ _ _ Hw), Hloop. unfold after_loop. simpl.
  case_bool_decide; [by eexists _, _|].
  rewrite config_file_split in Hw |- *.
  rewrite (atomic_write_succeeds _ _ _ _ _ Hw). by eexists _, _.
Qed.

(** X17. The returned [updated] sequence is exactly the proposed keys,
    in the caller's order, that are allow-listed, whose value passes the
    sanitizer and that have a line in the file as the call reads it,
    before any rewriting; and the call does return when nothing fails
    and every value the loop prints has a text. *)
Theorem updated_is_exactly_the_applied_keys
    (e : env) (items : list (string * json)) (s : fs) (content : string) :
  files s !! CONF = Some content →
  match update_settings SCRIPT_DIR e (JObj items) s with
  | (Ok r, _) =>
      r = JObj [("updated",
                 JArr (map JStr (map fst (List.filter
                                            (applies (universal_newlines content))
                                            items))))]
  | (Raise _, _) => True
  end ∧
  (writable e s CONF = true → values_have_text items = true →
   ∃ r s', update_settings SCRIPT_DIR e (JObj items) s = (Ok r, s')).
Proof.
  intros Hfile. split; [|by apply (update_settings_returns e items s content)].
  destruct (update_settings SCRIPT_DIR e (JObj items) s) as [[r|ex] s'] eqn:Hrun;
    [|done].
  rewrite (update_settings_unfold _ _ _ _ _ Hfile) in Hrun.
  destruct (read_fault e); [done|].
  destruct (settings_loop items (universal_newlines content) [])
    as [[c' upd]|ex] eqn:Hloop; [|done].
  apply (loop_updated_exact items (universal_newlines content)) in Hloop as Hexact;
    [|done].
  simpl in Hexact. subst upd.
  revert Hrun. unfold after_loop. simpl.
  case_bool_decide as Hnil.
  - intros [= <- _]. by rewrite Hnil.
  - destruct (atomic_write _ _ _ _) as [[[]|?] ?]; [|done]. by intros [= <- _].
Qed.

(** X18. The call never adds or removes a line of an allow-listed key:
    for each such key a reader in text mode finds as many [KEY=] lines
    in the settings file after the call as before.  In particular a key
    that is absent from the file is never created. *)
Theorem setting_lines_are_neither_added_nor_removed
    (e : env) (settings : json) (s : fs) (content : string) (key : string) :
  files s !! CONF = Some content →
  allowed key = true →
  ∃ content',
    files (snd (update_settings SCRIPT_DIR e settings s)) !! CONF = Some content' ∧
    length (klines key (universal_newlines content'))
    = length (klines key (universal_newlines content)).
Proof.
  intros Hfile Hkey.
  destruct (update_settings SCRIPT_DIR e settings s) as [r s'] eqn:Hrun.
  destruct (update_settings_outcome _ _ _ _ _ Hrun)
    as [(Hf & Hr)|(items & content0 & c' & upd & -> & Hfile0 & Hloop & Hne & -> & Hf)];
    simpl.
  - exists content. by rewrite Hf.
  - rewrite Hfile in Hfile0. injection Hfile0 as <-.
    exists c'. rewrite Hf, lookup_insert_eq. split; [done|].
    rewrite (universal_newlines_plain c').
    + by eapply loop_klines_length.
    + eapply loop_no_cr; [|exact Hloop]. apply universal_newlines_no_cr.
Qed.

(** X19. Sending the same settings a second time changes nothing, as
    long as no value's text holds a newline: the second call returns
    what the first returned and the files are the same after it.  Both
    calls return, since nothing fails and every value the loop prints
    has a text. *)
Theorem resending_settings_changes_nothing
    (e1 e2 : env) (items : list (string * json)) (s : fs) (content : string) :
  files s !! CONF = Some content →
  writable e1 s CONF = true →
  writable e2 s CONF = true →
  values_have_text items = true →
  (∀ k v t, (k, v) ∈ items → py_str v = Ok t → has_char NL t = false) →
  ∃ r s1 s2,
    update_settings SCRIPT_DIR e1 (JObj items) s = (Ok r, s1) ∧
    update_settings SCRIPT_DIR e2 (JObj items) s1 = (Ok r, s2) ∧
    files s2 = files s1.
Proof.
  intros Hfile Hw1 Hw2 Htext Hplain.
  destruct (loop_returns items (universal_newlines content) [] Htext)
    as [[c1 upd] Hloop].
  pose proof (loop_idempotent items _ _ _ Hplain Hloop) as Hidem.
  assert (universal_newlines c1 = c1) as Hc1.
  { apply universal_newlines_plain. eapply loop_no_cr; [|exact Hloop].
    apply universal_newlines_no_cr. }
  rewrite (update_settings_unfold _ _ _ _ _ Hfile).
  rewrite (writable_read_fault _ _ _ Hw1), Hloop. unfold after_loop. simpl.
  case_bool_decide as Hupd.
  - eexists _, s, s. split; [done|]. split; [|done].
    rewrite (update_settings_unfold _ _ _ _ _ Hfile).
    rewrite (writable_read_fault _ _ _ Hw2), Hloop. unfold after_loop.
    simpl. by rewrite bool_decide_eq_true_2.
  - rewrite config_file_split in Hw1, Hw2 |- *.
    rewrite (atomic_write_succeeds _ _ _ _ c1 Hw1).
    set (s1 := Fs (<[(SCRIPT_DIR ++ ["config"]) ++ ["ralph.conf"] := c1]> (files s))
                  (dirs s ∪ list_to_set (ancestors_or_self (SCRIPT_DIR ++ ["config"])))).
    assert (writable e2 s1 ((SCRIPT_DIR ++ ["config"]) ++ ["ralph.conf"]) = true)
      as Hw2'.
    { apply (writable_preserved e2 s); auto using ralph_conf_not_tmp.
      intros p Hp. simpl. by rewrite lookup_insert_ne. }
    assert (files s1 !! CONF = Some c1) as Hfile1.
    { rewrite config_file_split. apply lookup_insert_eq. }
    eexists _, s1, _. split; [done|].
    rewrite (update_settings_unfold _ _ _ _ _ Hfile1).
    rewrite (writable_read_fault _ _ _ Hw2'), Hc1, Hidem. unfold after_loop.
    simpl. rewrite bool_decide_eq_false_2 by done.
    rewrite config_file_split.
    rewrite (atomic_write_succeeds _ _ _ _ c1 Hw2').
    split; [done|]. simpl. apply insert_insert_eq.
Qed.

(** X20. A POST to [/api/settings] with a non-empty JSON object, on an
    existing settings file and with nothing failing, is answered 200
    with [ok] and the [updated] sequence of the loop, which ran on the
    text of the file as text mode gives it.  When that sequence is not
    empty the settings file then holds the text the loop produced;
    when it is empty the file is what it was. *)
Theorem accepted_settings_are_answered_200
    (e : env) (req : request) (s : fs) (n : nat)
    (items : list (string * json)) (content content' : string)
    (updated : list string) :
  req_path req = "/api/settings" →
  req_length req = Length (S n) →
  json_loads_bytes (take_str (S n) (rfile req)) = Ok (JObj items) →
  items ≠ [] →
  files s !! CONF = Some content →
  writable e s CONF = true →
  settings_loop items (universal_newlines content) [] = Ok (content', updated) →
  ∃ s',
    do_POST SCRIPT_DIR e req s
    = (JsonResponse 200
         (JObj [("ok", JBool true); ("updated", JArr (map JStr updated))]),
       s') ∧
    files s' !! CONF = Some (if bool_decide (updated = []) then content else content').
Proof.
  intros Hpath Hlen Hbody Hne Hfile Hw Hloop.
  rewrite (do_POST_settings _ _ _ Hpath). unfold handle_settings, respond.
  rewrite (bind_ok _ _ _ _ _ (read_body_parsed _ s _ _ Hlen Hbody)). cbv beta.
  assert (py_truthy (JObj items) = true) as -> by (by destruct items).
  cbn [negb].
  assert (∃ s', update_settings SCRIPT_DIR e (JObj items) s
                = (Ok (JObj [("updated", JArr (map JStr updated))]), s') ∧
                files s' !! CONF
                = Some (if bool_decide (updated = []) then content else content'))
    as (s' & Hupd & Hfile').
  { rewrite (update_settings_unfold _ _ _ _ _ Hfile).
    rewrite (writable_read_fault _ _ _ Hw), Hloop. unfold after_loop. simpl.
    case_bool_decide as Hnil.
    - exists s. by rewrite Hnil.
    - rewrite config_file_split in Hw |- *.
      rewrite (atomic_write_succeeds _ _ _ _ _ Hw).
      eexists. split; [done|]. simpl. apply lookup_insert_eq. }
  exists s'. split; [|done].
  by rewrite (bind_ok _ _ _ _ _ Hupd).
Qed.

(** X23. An integer of more than 4300 digits as the value of an
    allow-listed key stops the call: [update_settings] raises the
    [ValueError] of [str] and leaves the file system as it was, whatever
    else the payload holds, keys that would have been applied
    included. *)
Theorem oversized_integer_stops_the_update
    (e : env) (items : list (string * json)) (s : fs) (content : string)
    (key : string) (n : Z) :
  files s !! CONF = Some content →
  read_fault e = None →
  (key, JInt n) ∈ items →
  allowed key = true →
  (INT_MAX_STR_DIGITS < int_digits n)%N →
  ∃ msg, update_settings SCRIPT_DIR e (JObj items) s
         = (Raise (Exn ValueError msg), s).
Proof.
  intros Hfile Hrf Hin Hkey Hbig.
  rewrite (update_settings_unfold _ _ _ _ _ Hfile), Hrf.
  destruct (settings_loop items (universal_newlines content) [])
    as [looped|[cls msg]] eqn:Hloop.
  - apply loop_returned in Hloop. unfold values_have_text in Hloop.
    rewrite forallb_forall in Hloop.
    apply list_elem_of_In, Hloop in Hin. simpl in Hin. rewrite Hkey in Hin.
    unfold has_text, py_str, py_repr, int_str in Hin.
    destruct (N.ltb_spec INT_MAX_STR_DIGITS (int_digits n)); [done|lia].
  - apply loop_raises_value_error in Hloop as Hcls. simpl in Hcls. subst cls.
    by exists msg.
Qed.

(** X21. A non-empty body that is not a JSON object (an array, a string,
    a number, [true]) has no [items()]: with the settings file in place
    the request is answered 500 and nothing is written. *)
Theorem non_object_settings_body_is_500
    (e : env) (req : request) (s : fs) (n : nat) (body : json) (content : string) :
  req_path req = "/api/settings" →
  req_length req = Length (S n) →
  json_loads_bytes (take_str (S n) (rfile req)) = Ok body →
  py_truthy body = true →
  match body with JObj _ => False | _ => True end →
  files s !! CONF = Some content →
  read_fault e = None →
  ∃ msg, do_POST SCRIPT_DIR e req s
         = (JsonResponse 500 (JObj [("error", JStr msg)]), s).
Proof.
  intros Hpath Hlen Hbody Htruthy Hshape Hfile Hrf. eexists.
  rewrite (do_POST_settings _ _ _ Hpath). unfold handle_settings, respond.
  rewrite (bind_ok _ _ _ _ _ (read_body_parsed _ s _ _ Hlen Hbody)). cbv beta.
  rewrite Htruthy. cbn [negb].
  assert (update_settings SCRIPT_DIR e body s
          = (Raise (Exn AttributeError "object has no attribute 'items'"), s))
    as Hupd.
  { unfold update_settings.
    rewrite (bind_ok _ _ _ _ _ (eq_refl : get_fs s = (Ok s, s))).
    rewrite (file_exists _ _ _ Hfile). cbn [negb].
    rewrite (bind_ok _ _ _ _ _ (read_text_ok _ _ _ _ Hrf Hfile)).
    by destruct body. }
  by rewrite (bind_raise _ _ _ _ _ Hupd).
Qed.

(** X22. Every POST is answered, and with one of four statuses: 404 for
    a path that is neither endpoint (nothing is touched then), and 200,
    400 or 500, in a JSON payload, for the two endpoints: whatever the
    body parser, the enqueuer or the updater raises becomes a 400 or a
    500 answer. *)
Theorem every_post_is_answered (e : env) (req : request) (s : fs) :
  (req_path req ≠ "/api/command" → req_path req ≠ "/api/settings" →
   do_POST SCRIPT_DIR e req s = (ErrorPage 404 "Not Found", s)) ∧
  (req_path req = "/api/command" ∨ req_path req = "/api/settings" →
   ∃ status data,
     fst (do_POST SCRIPT_DIR e req s) = JsonResponse status data ∧
     status ∈ [200; 400; 500]).
Proof.
  split.
  - intros H1 H2. unfold do_POST. by rewrite !bool_decide_eq_false_2.
  - assert (∀ (m : M response) r s',
              respond m s = (r, s') →
              (∀ r0 s0, m s = (Ok r0, s0) →
                        ∃ data, r0 = JsonResponse 200 data ∨ r0 = JsonResponse 400 data) →
              ∃ status data, r = JsonResponse status data ∧ status ∈ [200; 400; 500])
      as Hrespond.
    { intros m r s' Hr Hok. unfold respond in Hr.
      destruct (m s) as [[r0|ex] s0].
      - injection Hr as <- <-. destruct (Hok r0 s0 eq_refl) as (data & [->| ->]);
          eexists _, _; (split; [done|]); repeat constructor.
      - destruct (exn_cls ex); injection Hr as <- <-;
          eexists _, _; (split; [done|]); repeat constructor. }
    intros [Hpath|Hpath].
    + rewrite (do_POST_command _ _ _ Hpath).
      destruct (handle_command SCRIPT_DIR e req s) as [r s'] eqn:Hrun. simpl.
      eapply Hrespond; [exact Hrun|]. intros r0 s0 Hm.
      apply bind_inv in Hm as [(? & _ & [=])|(body & s1 & _ & Hm)].
      apply bind_inv in Hm as [(? & _ & [=])|(present & s2 & _ & Hm)].
      destruct (negb present); [injection Hm as <- _; eauto|].
      apply bind_inv in Hm as [(? & _ & [=])|(result & s3 & _ & Hm)].
      apply bind_inv in Hm as [(? & _ & [=])|(len & s4 & _ & Hm)].
      injection Hm as <- _. eauto.
    + rewrite (do_POST_settings _ _ _ Hpath).
      destruct (handle_settings SCRIPT_DIR e req s) as [r s'] eqn:Hrun. simpl.
      eapply Hrespond; [exact Hrun|]. intros r0 s0 Hm.
      apply bind_inv in Hm as [(? & _ & [=])|(body & s1 & _ & Hm)].
      destruct (negb (py_truthy body)); [injection Hm as <- _; eauto|].
      apply bind_inv in Hm as [(? & _ & [=])|(result & s2 & _ & Hm)].
      destruct result; try done. injection Hm as <- _. eauto.
Qed.

End SettingsOutcome.

(** ** Further runs on the sample deployment *)

Section MoreRuns.
Import Sample Traffic.

Local Abbreviation CONF := (CONFIG_FILE script_dir).
Local Abbreviation CF := (CONTROL_FILE script_dir).

Lemma atomic_write_writes_target_witness :
  ∃ s', atomic_write quiet ((script_dir ++ ["config"]) ++ ["ralph.conf"])
          "RALPH_MODE=x" conf_disk = (Ok tt, s') ∧
        files s' !! ((script_dir ++ ["config"]) ++ ["ralph.conf"])
          = Some "RALPH_MODE=x" ∧
        (∀ q, q ≠ (script_dir ++ ["config"]) ++ ["ralph.conf"] →
              files s' !! q = files conf_disk !! q) ∧
        dirs s' = dirs conf_disk
                  ∪ list_to_set (ancestors_or_self (script_dir ++ ["config"])).
Proof.
  apply (atomic_write_writes_target quiet conf_disk (script_dir ++ ["config"])
           "ralph.conf" "RALPH_MODE=x").
  vm_compute. reflexivity.
Defined.

Lemma target_changes_in_last_step_witness :
  ∃ st, atomic_write_trace quiet CONF "RALPH_MODE=x" conf_disk !! 9 = Some st ∧
        files st !! CONF = files conf_disk !! CONF.
Proof.
  eexists. split; [vm_compute; reflexivity|].
  apply (target_changes_in_last_step script_dir quiet CONF "RALPH_MODE=x"
           conf_disk _ 9).
  - apply elem_of_cons. right. apply elem_of_cons. left. reflexivity.
  - vm_compute. reflexivity.
  - vm_compute. lia.
Defined.


Lemma command_without_field_is_400_witness :
  @do_POST PyJson.codec script_dir quiet post_nothing empty_disk
  = (JsonResponse 400 (JObj [("error", JStr "Missing 'command' field")]), empty_disk).
Proof.
  apply (@command_without_field_is_400 PyJson.codec script_dir quiet post_nothing
           empty_disk).
  - reflexivity.
  - left. reflexivity.
Defined.

Lemma unparsed_body_is_400_or_500_witness :
  @do_POST PyJson.codec script_dir quiet post_garbage queue_disk
  = (JsonResponse 400 (JObj [("error", JStr "Invalid JSON")]), queue_disk) ∧
  @do_POST PyJson.codec script_dir quiet post_undecodable queue_disk
  = (JsonResponse 500 (JObj [("error", JStr "'utf-8' codec can't decode byte")]),
     queue_disk).
Proof.
  split.
  - apply (@unparsed_body_is_400_or_500 PyJson.codec script_dir quiet post_garbage
             queue_disk 4 (Exn JSONDecodeError "Expecting value")).
    + left. reflexivity.
    + reflexivity.
    + vm_compute. reflexivity.
  - apply (@unparsed_body_is_400_or_500 PyJson.codec script_dir quiet post_undecodable
             queue_disk 0 (Exn UnicodeDecodeError "'utf-8' codec can't decode byte")).
    + left. reflexivity.
    + reflexivity.
    + vm_compute. reflexivity.
Defined.

Lemma empty_settings_body_is_400_witness :
  @do_POST PyJson.codec script_dir quiet post_empty_settings conf_disk
  = (JsonResponse 400 (JObj [("error", JStr "Empty body")]), conf_disk).
Proof.
  apply (@empty_settings_body_is_400 PyJson.codec script_dir quiet
           post_empty_settings conf_disk).
  - reflexivity.
  - right. right. exists 1, (JObj []). split_and!; vm_compute; reflexivity.
Defined.

Lemma malformed_content_length_is_500_witness :
  ∃ msg, @do_POST PyJson.codec script_dir quiet post_bad_length conf_disk
         = (JsonResponse 500 (JObj [("error", JStr msg)]), conf_disk).
Proof.
  apply (@malformed_content_length_is_500 PyJson.codec script_dir quiet
           post_bad_length conf_disk).
  - right. reflexivity.
  - reflexivity.
Defined.

Lemma scalar_command_body_is_500_witness :
  ∃ msg, @do_POST PyJson.codec script_dir quiet post_number queue_disk
         = (JsonResponse 500 (JObj [("error", JStr msg)]), queue_disk).
Proof.
  apply (@scalar_command_body_is_500 PyJson.codec script_dir quiet post_number
           queue_disk 1 (JInt 42)).
  - reflexivity.
  - reflexivity.
  - vm_compute. reflexivity.
  - exact I.
Defined.


Lemma malformed_queue_document_is_500_witness :
  ∃ msg s',
    @do_POST PyJson.codec script_dir quiet post_pause odd_queue_disk
    = (JsonResponse 500 (JObj [("error", JStr msg)]), s') ∧
    files s' = files odd_queue_disk.
Proof.
  apply (@malformed_queue_document_is_500 PyJson.codec script_dir quiet post_pause
           odd_queue_disk 19 pause ("{" +:+ quoted "pending" +:+ ": 3}")
           (JObj [("pending", JInt 3)]));
    vm_compute; reflexivity.
Defined.

Lemma updated_is_exactly_the_applied_keys_witness :
  match update_settings script_dir quiet (JObj mode_debug) cr_disk with
  | (Ok r, _) =>
      r = JObj [("updated",
                 JArr (map JStr (map fst (List.filter
                                            (applies (universal_newlines cr_text))
                                            mode_debug))))]
  | (Raise _, _) => True
  end ∧
  (writable quiet cr_disk CONF = true → values_have_text mode_debug = true →
   ∃ r s', update_settings script_dir quiet (JObj mode_debug) cr_disk = (Ok r, s')).
Proof.
  apply (updated_is_exactly_the_applied_keys script_dir quiet mode_debug
           cr_disk cr_text).
  vm_compute. reflexivity.
Defined.

Lemma setting_lines_are_neither_added_nor_removed_witness :
  ∃ content',
    files (snd (update_settings script_dir quiet (JObj mode_debug) cr_disk)) !! CONF
      = Some content' ∧
    length (List.filter (key_line "RALPH_MODE") (lines (universal_newlines content')))
    = length (List.filter (key_line "RALPH_MODE") (lines (universal_newlines cr_text))).
Proof.
  apply (setting_lines_are_neither_added_nor_removed script_dir quiet
           (JObj mode_debug) cr_disk cr_text "RALPH_MODE");
    vm_compute; reflexivity.
Defined.

Lemma resending_settings_changes_nothing_witness :
  ∃ r s1 s2,
    update_settings script_dir quiet (JObj mode_debug) crlf_disk = (Ok r, s1) ∧
    update_settings script_dir quiet (JObj mode_debug) s1 = (Ok r, s2) ∧
    files s2 = files s1.
Proof.
  apply (resending_settings_changes_nothing script_dir quiet quiet mode_debug
           crlf_disk crlf_text).
  - vm_compute. reflexivity.
  - vm_compute. reflexivity.
  - vm_compute. reflexivity.
  - vm_compute. reflexivity.
  - intros k v t Hin Ht.
    repeat (apply elem_of_cons in Hin as [[= -> ->]|Hin];
            [injection Ht as <-; reflexivity|]).
    by apply elem_of_nil in Hin.
Defined.

Lemma accepted_settings_are_answered_200_witness :
  ∃ s',
    @do_POST PyJson.codec script_dir quiet post_mode_debug crlf_disk
    = (JsonResponse 200
         (JObj [("ok", JBool true);
                ("updated", JArr (map JStr ["RALPH_MODE"]))]),
       s') ∧
    files s' !! CONF
    = Some (if bool_decide (["RALPH_MODE"] = [])
            then crlf_text
            else "RALPH_MODE=" +:+ quoted "debug" +:+ nl
                 +:+ "PROJECT_NAME=demo" +:+ nl).
Proof.
  apply (@accepted_settings_are_answered_200 PyJson.codec script_dir quiet
           post_mode_debug crlf_disk 42 mode_debug crlf_text);
    try (vm_compute; reflexivity).
  discriminate.
Defined.

Lemma oversized_integer_stops_the_update_witness :
  ∃ msg, update_settings script_dir quiet (JObj mode_then_huge) conf_disk
         = (Raise (Exn ValueError msg), conf_disk).
Proof.
  apply (oversized_integer_stops_the_update script_dir quiet mode_then_huge
           conf_disk conf_text "RALPH_MIN_DELAY_SECONDS" huge).
  - vm_compute. reflexivity.
  - reflexivity.
  - apply elem_of_cons. right. apply elem_of_cons. left. reflexivity.
  - vm_compute. reflexivity.
  - vm_compute. reflexivity.
Defined.

Lemma non_object_settings_body_is_500_witness :
  ∃ msg, @do_POST PyJson.codec script_dir quiet post_list_settings conf_disk
         = (JsonResponse 500 (JObj [("error", JStr msg)]), conf_disk).
Proof.
  apply (@non_object_settings_body_is_500 PyJson.codec script_dir quiet
           post_list_settings conf_disk 2 (JArr [JInt 1]) conf_text);
    vm_compute; reflexivity.
Defined.

Lemma every_post_is_answered_witness :
  @do_POST PyJson.codec script_dir quiet post_elsewhere conf_disk
  = (ErrorPage 404 "Not Found", conf_disk).
Proof.
  apply (proj1 (@every_post_is_answered PyJson.codec script_dir quiet
                  post_elsewhere conf_disk)); discriminate.
Defined.

End MoreRuns.
